(** * EasyPDF: the cursor-driven page layout of [src/index.js]

    A shallow embedding of the [EasyPDF] class (the current revision of
    [src/index.js], with [addImage]) and of the places where the earlier
    revision of the same class differs ([checkWriteY] returning a boolean,
    [addText] without the article branch at its end).

    - JavaScript numbers are the IEEE 754 binary64 numbers of [PrimFloat],
      with their rounding, their infinities and [NaN]: [+], [-], [*] and [/]
      are the operations of the code, [===] is [=?], [a > b] is [b <? a],
      and a decimal literal denotes the nearest binary64 number, as in
      JavaScript.  Only [#pageIndex], which counts from 1 in steps of 1, is
      kept as an integer.
    - The jsPDF object held in [#pdf] is modelled by the history of the calls
      made on it; what jsPDF measures ([getTextWidth], [splitTextToSize],
      [getImageProperties], the page size) is a function of that history
      and is taken through the class [Renderer].
    - Methods are state transformers over the instance; they also emit the
      sequence of vertical cursor events (advance / pagination check), which
      is observation only and not part of the instance. *)

From Stdlib Require Import PrimFloat ZArith List String Ascii Bool Lia.
Import ListNotations.

#[local] Set Warnings "-inexact-float".

Open Scope float_scope.

(** ** Values and the jsPDF collaborator *)

(** What a method hands back to its caller: nothing ([undefined]), a boolean,
    or the receiver ([this]). *)
Inductive JsValue : Type :=
| JUndefined
| JBool (b : bool)
| JThis.

Definition Color := list float.

(** Calls made on the jsPDF object. *)
Inductive PdfCall : Type :=
| NewJsPDF (orientation unit size : string)
| SetFont (name : string)
| SetFontSize (size : float)
| SetTextColor (c : Color)
| SetDrawColor (c : Color)
| SetLineWidth (w : float)
| Text (text : string) (x y : float)
| Line (x1 y1 x2 y2 : float)
| AddImage (img format : string) (x y w h : float)
| AddPage
| SetPage (n : Z)
| Save (filename : string).

(** The jsPDF object: its call history, oldest call first. *)
Definition JsPDF := list PdfCall.

Record ImageProperties : Type := mkImageProperties {
  ipWidth : float;
  ipHeight : float
}.

(** The measuring side of jsPDF. *)
Class Renderer : Type := {
  getTextWidth : JsPDF -> string -> float;
  splitTextToSize : JsPDF -> string -> float -> list string;
  getImageProperties : JsPDF -> string -> ImageProperties;
  pageSizeGetWidth : JsPDF -> float;
  pageSizeGetHeight : JsPDF -> float
}.

(** ** The instance *)

Record EasyPDF : Type := mkEasyPDF {
  pdf : JsPDF;
  pageIndex : Z;
  writeY : float;
  writeX : float;
  lastLineHeight : float;
  pageWidth : float;
  pageHeight : float;
  pagePaddingX : float;
  pagePaddingY : float;
  fontSize : float;
  (* the constructor stores options.fontSize in #fontName *)
  fontName : float;
  color : Color
}.

Definition set_pdf (v : JsPDF) (s : EasyPDF) : EasyPDF :=
  mkEasyPDF v (pageIndex s) (writeY s) (writeX s) (lastLineHeight s)
    (pageWidth s) (pageHeight s) (pagePaddingX s) (pagePaddingY s)
    (fontSize s) (fontName s) (color s).

Definition set_pageIndex (v : Z) (s : EasyPDF) : EasyPDF :=
  mkEasyPDF (pdf s) v (writeY s) (writeX s) (lastLineHeight s)
    (pageWidth s) (pageHeight s) (pagePaddingX s) (pagePaddingY s)
    (fontSize s) (fontName s) (color s).

Definition set_writeY (v : float) (s : EasyPDF) : EasyPDF :=
  mkEasyPDF (pdf s) (pageIndex s) v (writeX s) (lastLineHeight s)
    (pageWidth s) (pageHeight s) (pagePaddingX s) (pagePaddingY s)
    (fontSize s) (fontName s) (color s).

Definition set_writeX (v : float) (s : EasyPDF) : EasyPDF :=
  mkEasyPDF (pdf s) (pageIndex s) (writeY s) v (lastLineHeight s)
    (pageWidth s) (pageHeight s) (pagePaddingX s) (pagePaddingY s)
    (fontSize s) (fontName s) (color s).

Definition set_lastLineHeight (v : float) (s : EasyPDF) : EasyPDF :=
  mkEasyPDF (pdf s) (pageIndex s) (writeY s) (writeX s) v
    (pageWidth s) (pageHeight s) (pagePaddingX s) (pagePaddingY s)
    (fontSize s) (fontName s) (color s).

(** [get clientWidth] *)
Definition clientWidth (s : EasyPDF) : float :=
  pageWidth s - pagePaddingX s * 2.

(** [get clientHeight] *)
Definition clientHeight (s : EasyPDF) : float :=
  pageHeight s - pagePaddingY s * 2.

(** JavaScript [a > b] and [a !== b] on numbers. *)
Definition gtb (a b : float) : bool := b <? a.
Definition neb (a b : float) : bool := negb (a =? b).

(** The JavaScript number of an integer; exact below 2^53. *)
Fixpoint numberOfPositive (p : positive) : float :=
  match p with
  | xH => 1
  | xO q => 2 * numberOfPositive q
  | xI q => 2 * numberOfPositive q + 1
  end.

Definition numberOfZ (z : Z) : float :=
  match z with
  | Z0 => 0
  | Zpos p => numberOfPositive p
  | Zneg p => - numberOfPositive p
  end.

(** ** Methods as state transformers *)

(** Vertical cursor events: [writeY += d] and a call of
    [checkWriteY(height)]. *)
Inductive YEvent : Type :=
| YAdvance (d : float)
| YCheck (height : float).

Record Out (A : Type) : Type := mkOut {
  ret : A;
  post : EasyPDF;
  ytrace : list YEvent
}.

Arguments mkOut {A} _ _ _.
Arguments ret {A} _.
Arguments post {A} _.
Arguments ytrace {A} _.

Definition M (A : Type) : Type := EasyPDF -> Out A.

Definition pure {A : Type} (a : A) : M A :=
  fun s => mkOut a s [].

Definition bind {A B : Type} (m : M A) (k : A -> M B) : M B :=
  fun s =>
    let r := m s in
    let r' := k (ret r) (post r) in
    mkOut (ret r') (post r') (ytrace r ++ ytrace r').

Declare Scope method_scope.
Delimit Scope method_scope with method.

Notation "x <- m ;; k" := (bind m (fun x => k))
  (at level 61, m at next level, right associativity) : method_scope.
Notation "m ;; k" := (bind m (fun _ => k))
  (at level 61, right associativity) : method_scope.

Open Scope method_scope.

(** Read the instance. *)
Definition get : M EasyPDF :=
  fun s => mkOut s s [].

(** Assign to fields of the instance. *)
Definition assign (f : EasyPDF -> EasyPDF) : M unit :=
  fun s => mkOut tt (f s) [].

Definition emit (e : YEvent) : M unit :=
  fun s => mkOut tt s [e].

(** [this.#pdf.<call>(...)] *)
Definition pdfCall (c : PdfCall) : M unit :=
  assign (fun s => set_pdf (pdf s ++ [c]) s).

(** [this.#writeY += d] *)
Definition advanceWriteY (d : float) : M unit :=
  emit (YAdvance d) ;;
  assign (fun s => set_writeY (writeY s + d) s).

(** [when c m]: [if (c) { m }] *)
Definition when (c : bool) (m : M unit) : M unit :=
  if c then m else pure tt.

(** [#checkWriteY(height)], src/index.js lines 185-191.  The method has no
    [return] statement. *)
Definition checkWriteY (height : float) : M JsValue :=
  emit (YCheck height) ;;
  this <- get ;;
  when (gtb (writeY this + height) (pageHeight this - pagePaddingY this))
    (pdfCall AddPage ;;
     assign (fun s => set_pageIndex (pageIndex s + 1)%Z s) ;;
     this <- get ;;
     pdfCall (SetPage (pageIndex this)) ;;
     assign (fun s => set_writeY (pagePaddingY s) s)) ;;
  pure JUndefined.

(** [#getLineHeight(fontSize)] *)
Definition getLineHeight (fontSize : float) : float :=
  fontSize * 0.55.

(** [#getTextWriteY(fontSize)] *)
Definition getTextWriteY (fontSize : float) (s : EasyPDF) : float :=
  writeY s + fontSize * 0.4.

(** The line break that block-level methods force when the cursor is not at
    the left margin:
    [if (writeX !== pagePaddingX) { writeX = pagePaddingX;
         writeY += lastLineHeight }] *)
Definition breakLine : M unit :=
  this <- get ;;
  when (neb (writeX this) (pagePaddingX this))
    (assign (fun s => set_writeX (pagePaddingX s) s) ;;
     this <- get ;;
     advanceWriteY (lastLineHeight this)).

(** The guard of [checkWriteY]:
    [writeY + height > pageHeight - pagePaddingY]. *)
Definition paginates (height : float) (s : EasyPDF) : bool :=
  gtb (writeY s + height) (pageHeight s - pagePaddingY s).

(** An option of an options object: [None] when the caller left the key out,
    so that the default of the merge [{ key: default, ...options }] stays. *)
Definition orDefault {A : Type} (o : option A) (d : A) : A :=
  match o with
  | Some v => v
  | None => d
  end.

(** Options of the constructor. *)
Module Options.
Record t : Type := mk {
  size : option string;
  fontSize : option float;
  fontName : option string;
  pagePaddingX : option float;
  pagePaddingY : option float;
  color : option Color
}.
Definition empty : t := mk None None None None None None.
End Options.

(** Options of [addText] and [addArticle]. *)
Module TextOptions.
Record t : Type := mk {
  fontSize : option float;
  color : option Color;
  left : option float;
  right : option float;
  article : option bool
}.
Definition empty : t := mk None None None None None.
(** [{ ...options, article: true }] *)
Definition withArticle (o : t) : t :=
  mk (fontSize o) (color o) (left o) (right o) (Some true).
End TextOptions.

(** Options of [addLine]. *)
Module LineOptions.
Record t : Type := mk {
  top : option float;
  bottom : option float;
  lineWidth : option float;
  color : option Color
}.
Definition empty : t := mk None None None None.
End LineOptions.

(** [options.height] of [addImage]: a number or the string ['auto']. *)
Inductive ImageHeight : Type :=
| Auto
| Height (h : float).

(** Options of [addImage]. *)
Module ImageOptions.
Record t : Type := mk {
  top : option float;
  bottom : option float;
  width : option float;
  height : option ImageHeight;
  format : option string
}.
Definition empty : t := mk None None None None None.
End ImageOptions.

(** [text.slice(n)] *)
Definition slice (n : nat) (text : string) : string :=
  substring n (String.length text - n) text.

Definition isNil {A : Type} (l : list A) : bool :=
  match l with
  | [] => true
  | _ :: _ => false
  end.

Section Methods.

Context {R : Renderer}.

(** [constructor(options = {})], src/index.js lines 156-177.
    [options.color] is merged but not stored: [#color] keeps the value of
    its field initialiser. *)
Definition constructor (options : Options.t) : EasyPDF :=
  let size := orDefault (Options.size options) "a4"%string in
  let fontSize := orDefault (Options.fontSize options) 16 in
  let fontName := orDefault (Options.fontName options) "a"%string in
  let pagePaddingX := orDefault (Options.pagePaddingX options) 10 in
  let pagePaddingY := orDefault (Options.pagePaddingY options) 10 in
  let pdf :=
    [NewJsPDF "p" "mm" size; SetFont fontName; SetFontSize fontSize] in
  {| pdf := pdf;
     pageIndex := 1;
     writeY := pagePaddingY;
     writeX := pagePaddingX;
     lastLineHeight := 0;
     pageWidth := pageSizeGetWidth pdf;
     pageHeight := pageSizeGetHeight pdf;
     pagePaddingX := pagePaddingX;
     pagePaddingY := pagePaddingY;
     fontSize := fontSize;
     fontName := fontSize;
     color := [10; 10; 10] |}.

(** The loop of [addText] that splits off the first line (lines 245-252):
    [text] is what is left to iterate over, [firstLine] and [firstWidth]
    are the loop's variables. *)
Fixpoint scanFirstLine (pdf : JsPDF) (remainWidth : float) (text : string)
    (firstLine : string) (firstWidth : float) : string * float :=
  match text with
  | EmptyString => (firstLine, firstWidth)
  | String c text' =>
      let width := getTextWidth pdf (firstLine ++ String c EmptyString) in
      if gtb width remainWidth then (firstLine, firstWidth)
      else scanFirstLine pdf remainWidth text'
             (firstLine ++ String c EmptyString) width
  end.

(** [addText], lines 234-241: font state, and the line break of article
    mode. *)
Definition addTextBegin (fontSize : float) (color : Color) (article : bool)
    : M unit :=
  pdfCall (SetFontSize fontSize) ;;
  pdfCall (SetTextColor color) ;;
  this <- get ;;
  when (article && neb (writeX this) (pagePaddingX this))
    (assign (fun s => set_writeX (pagePaddingX s) s) ;;
     this <- get ;;
     advanceWriteY (lastLineHeight this)).

(** [remainWidth] of [addText], line 243. *)
Definition remainWidth (left : float) (s : EasyPDF) : float :=
  clientWidth s - writeX s - left - pagePaddingX s.

(** [addText], lines 242-256: the first line.  Returns [firstLine]. *)
Definition addTextFirstLine (text : string) (fontSize left : float)
    : M string :=
  this <- get ;;
  let (firstLine, firstWidth) :=
    scanFirstLine (pdf this) (remainWidth left this) text EmptyString 0 in
  checkWriteY (getLineHeight fontSize) ;;
  this <- get ;;
  pdfCall (Text firstLine (writeX this) (getTextWriteY fontSize this)) ;;
  assign (fun s => set_writeX (writeX s + firstWidth) s) ;;
  pure firstLine.

(** [addText], lines 260-271: the loop over [splitText]. *)
Fixpoint addTextLines (fontSize : float) (splitText : list string) : M unit :=
  match splitText with
  | [] => pure tt
  | text :: rest =>
      advanceWriteY (getLineHeight fontSize) ;;
      assign (fun s => set_writeX (pagePaddingX s) s) ;;
      checkWriteY (getLineHeight fontSize) ;;
      this <- get ;;
      pdfCall (Text text (writeX this) (getTextWriteY fontSize this)) ;;
      when (isNil rest)
        (assign (fun s =>
           set_writeX (pagePaddingX s + getTextWidth (pdf s) text) s)) ;;
      addTextLines fontSize rest
  end.

(** [addText], lines 257-272: the rest of the text. *)
Definition addTextRest (text firstLine : string) (fontSize : float) : M unit :=
  when (negb (Nat.eqb (String.length firstLine) (String.length text)))
    (this <- get ;;
     addTextLines fontSize
       (splitTextToSize (pdf this)
          (slice (String.length firstLine) text) (clientWidth this))).

(** The guard of the inline wrap, line 279. *)
Definition inlineWraps (s : EasyPDF) : bool :=
  gtb (writeX s) (clientWidth s + numberOfZ (pageIndex s)).

(** [addText], lines 273-285: the end of the call. *)
Definition addTextEnd (fontSize right : float) (article : bool) : M unit :=
  (if article then
     assign (fun s => set_writeX (pagePaddingX s) s) ;;
     advanceWriteY (getLineHeight fontSize)
   else
     assign (fun s => set_writeX (writeX s + right) s) ;;
     this <- get ;;
     when (inlineWraps this)
       (assign (fun s => set_writeX (pagePaddingX s) s) ;;
        advanceWriteY (getLineHeight fontSize))) ;;
  assign (set_lastLineHeight (getLineHeight fontSize)).

(** [addText], lines 234-272: everything that is rendered. *)
Definition addTextRender (text : string) (fontSize : float) (color : Color)
    (left : float) (article : bool) : M unit :=
  addTextBegin fontSize color article ;;
  firstLine <- addTextFirstLine text fontSize left ;;
  addTextRest text firstLine fontSize.

(** [addText(text, options = {})], lines 225-287. *)
Definition addText (text : string) (options : TextOptions.t) : M JsValue :=
  this <- get ;;
  let fontSize := orDefault (TextOptions.fontSize options) (fontSize this) in
  let color := orDefault (TextOptions.color options) (color this) in
  let left := orDefault (TextOptions.left options) 0 in
  let right := orDefault (TextOptions.right options) 0 in
  let article := orDefault (TextOptions.article options) false in
  addTextRender text fontSize color left article ;;
  addTextEnd fontSize right article ;;
  pure JThis.

(** [addArticle(text, options = {})], lines 300-302. *)
Definition addArticle (text : string) (options : TextOptions.t)
    : M JsValue :=
  addText text (TextOptions.withArticle options).

(** [addLine(options = {})], lines 314-337. *)
Definition addLine (options : LineOptions.t) : M JsValue :=
  this <- get ;;
  let top := orDefault (LineOptions.top options) 4 in
  let bottom := orDefault (LineOptions.bottom options) 4 in
  let lineWidth := orDefault (LineOptions.lineWidth options) 0.5 in
  let color := orDefault (LineOptions.color options) (color this) in
  breakLine ;;
  checkWriteY (top + lineWidth) ;;
  pdfCall (SetLineWidth lineWidth) ;;
  pdfCall (SetDrawColor color) ;;
  this <- get ;;
  pdfCall (Line (pagePaddingX this) (writeY this + top)
             (pageWidth this - pagePaddingX this) (writeY this + top)) ;;
  advanceWriteY (top + lineWidth + bottom) ;;
  pure JThis.

(** [addImage(img, options)], lines 350-376.  The method has no [return]
    statement, and [top], [bottom] and [format] are merged but not read. *)
Definition addImage (img : string) (options : ImageOptions.t) : M JsValue :=
  this <- get ;;
  let top := orDefault (ImageOptions.top options) 4 in
  let bottom := orDefault (ImageOptions.bottom options) 4 in
  let width := orDefault (ImageOptions.width options) (clientWidth this) in
  let format := orDefault (ImageOptions.format options) "PNG"%string in
  let height :=
    match orDefault (ImageOptions.height options) Auto with
    | Auto =>
        let imgProperties := getImageProperties (pdf this) img in
        (width * ipHeight imgProperties) / ipWidth imgProperties
    | Height h => h
    end in
  breakLine ;;
  assign (fun s => set_writeX ((pageWidth s - width) / 2) s) ;;
  checkWriteY height ;;
  this <- get ;;
  pdfCall (AddImage img "PNG" (writeX this) (writeY this) width height) ;;
  assign (fun s => set_writeX (pagePaddingX s) s) ;;
  advanceWriteY height ;;
  pure JUndefined.

(** [addSpace(height = 5)], lines 385-394. *)
Definition addSpace (height : option float) : M JsValue :=
  let height := orDefault height 5 in
  breakLine ;;
  checkWriteY height ;;
  advanceWriteY height ;;
  assign (fun s => set_writeX (pagePaddingX s) s) ;;
  pure JThis.

(** [save(filename)], lines 402-405. *)
Definition save (filename : string) : M JsValue :=
  pdfCall (Save filename) ;;
  pure JThis.

(** A call of a public method. *)
Inductive Op : Type :=
| OpText (text : string) (options : TextOptions.t)
| OpArticle (text : string) (options : TextOptions.t)
| OpLine (options : LineOptions.t)
| OpImage (img : string) (options : ImageOptions.t)
| OpSpace (height : option float)
| OpSave (filename : string).

Definition call (op : Op) : M JsValue :=
  match op with
  | OpText text options => addText text options
  | OpArticle text options => addArticle text options
  | OpLine options => addLine options
  | OpImage img options => addImage img options
  | OpSpace height => addSpace height
  | OpSave filename => save filename
  end.

(** A sequence of calls on one instance, as statements. *)
Fixpoint calls (ops : list Op) : M unit :=
  match ops with
  | [] => pure tt
  | op :: ops' => call op ;; calls ops'
  end.

End Methods.

(** ** The earlier revision of the class, where it differs *)

Module Earlier.

(** [#checkWriteY(height)] of the earlier revision (its lines 48-56):
    [return false] after paginating, [return true] otherwise. *)
Definition checkWriteY (height : float) : M JsValue :=
  emit (YCheck height) ;;
  this <- get ;;
  if gtb (writeY this + height) (pageHeight this - pagePaddingY this) then
    pdfCall AddPage ;;
    assign (fun s => set_pageIndex (pageIndex s + 1)%Z s) ;;
    this <- get ;;
    pdfCall (SetPage (pageIndex this)) ;;
    assign (fun s => set_writeY (pagePaddingY s) s) ;;
    pure (JBool false)
  else pure (JBool true).

Section Methods.

Context {R : Renderer}.

(** The end of [addText] in the earlier revision (its lines 130-138): no
    article branch, and a pagination check inside the wrap. *)
Definition addTextEnd (fontSize right : float) : M unit :=
  assign (fun s => set_writeX (writeX s + right) s) ;;
  this <- get ;;
  when (inlineWraps this)
    (assign (fun s => set_writeX (pagePaddingX s) s) ;;
     checkWriteY (getLineHeight fontSize) ;;
     advanceWriteY (getLineHeight fontSize)) ;;
  assign (set_lastLineHeight (getLineHeight fontSize)).

(** [addText] of the earlier revision; up to its line 129 it is the text of
    the current one. *)
Definition addText (text : string) (options : TextOptions.t) : M JsValue :=
  this <- get ;;
  let fontSize := orDefault (TextOptions.fontSize options) (fontSize this) in
  let color := orDefault (TextOptions.color options) (color this) in
  let left := orDefault (TextOptions.left options) 0 in
  let right := orDefault (TextOptions.right options) 0 in
  let article := orDefault (TextOptions.article options) false in
  addTextRender text fontSize color left article ;;
  addTextEnd fontSize right ;;
  pure JThis.

(** [addArticle] of the earlier revision (its lines 153-155). *)
Definition addArticle (text : string) (options : TextOptions.t)
    : M JsValue :=
  addText text (TextOptions.withArticle options).

End Methods.

End Earlier.

(** ** Notions used in the further properties *)

(** [keeps P m]: the method [m] keeps the property [P] of the instance. *)
Definition keeps (P : EasyPDF -> Prop) {A : Type} (m : M A) : Prop :=
  forall s, P s -> P (post (m s)).

(** The number of [addPage] calls made on jsPDF. *)
Fixpoint addedPages (log : JsPDF) : Z :=
  match log with
  | [] => 0
  | AddPage :: log' => 1 + addedPages log'
  | _ :: log' => addedPages log'
  end.

(** The argument of the last [setPage] call made on jsPDF, [current] when
    there is none. *)
Fixpoint lastSetPage (current : Z) (log : JsPDF) : Z :=
  match log with
  | [] => current
  | SetPage n :: log' => lastSetPage n log'
  | _ :: log' => lastSetPage current log'
  end.

(** Calls that neither add nor select a page. *)
Definition pageNeutral (c : PdfCall) : bool :=
  match c with
  | AddPage | SetPage _ => false
  | _ => true
  end.

(** The instance and jsPDF agree on the pages: [pageIndex] counts the pages
    of the document and is the page selected last; it is not below
    [from]. *)
Definition pagesInSync (from : Z) (s : EasyPDF) : Prop :=
  pageIndex s = (1 + addedPages (pdf s))%Z /\
  lastSetPage 1 (pdf s) = pageIndex s /\
  (from <= pageIndex s)%Z.

(** The strings handed to [pdf.text], in the order of the calls. *)
Fixpoint texts (log : JsPDF) : list string :=
  match log with
  | [] => []
  | Text text _ _ :: log' => text :: texts log'
  | _ :: log' => texts log'
  end.

(** The lines of a text put together again. *)
Fixpoint joined (lines : list string) : string :=
  match lines with
  | [] => EmptyString
  | line :: lines' => (line ++ joined lines')%string
  end.

(** The lines [s'] has added to the jsPDF calls of [s] all satisfy [P]. *)
Definition appends (P : PdfCall -> Prop) (s s' : EasyPDF) : Prop :=
  exists added, pdf s' = pdf s ++ added /\ Forall P added.

(** The guard of [checkWriteY] at the top of a page, where [writeY] is
    [pagePaddingY]: an element of height [height] is sent on even from
    there. *)
Definition paginatesAtTop (height : float) (s : EasyPDF) : bool :=
  gtb (pagePaddingY s + height) (pageHeight s - pagePaddingY s).

(** A line of text of font size [size] is drawn with its baseline
    [size * 0.4] below a cursor at which the guard of [checkWriteY] has
    let the line pass; says nothing of other calls. *)
Definition lineWithin (size limit : float) (c : PdfCall) : Prop :=
  match c with
  | Text _ _ y =>
      exists cursor,
        y = cursor + size * 0.4 /\
        gtb (cursor + getLineHeight size) limit = false
  | _ => True
  end.

(** Two numbers are the same: the same value, or equal under [===]. *)
Definition sameNumber (a b : float) : Prop :=
  a = b \/ (a =? b) = true.

(** ** Notions used in the statements *)

(** [p] is a prefix of [text]. *)
Definition prefixOf (p text : string) : Prop :=
  exists rest, text = (p ++ rest)%string.

Section Fitting.

Context {R : Renderer}.

(** The probe of the first-line loop does not break on [p]. *)
Definition fits (pdf : JsPDF) (remainWidth : float) (p : string) : Prop :=
  gtb (getTextWidth pdf p) remainWidth = false.

(** Every step of the loop up to [p] passes its probe. *)
Definition allFit (pdf : JsPDF) (remainWidth : float) (p : string) : Prop :=
  forall q, q <> EmptyString -> prefixOf q p -> fits pdf remainWidth q.

(** The first-line fragment in the words of the specification: the
    longest prefix of [text] whose measured width is at most
    [remainWidth]. *)
Definition longestPrefixWithin (pdf : JsPDF) (remainWidth : float)
    (text p : string) : Prop :=
  prefixOf p text /\
  (getTextWidth pdf p <=? remainWidth) = true /\
  forall q, prefixOf q text ->
            (getTextWidth pdf q <=? remainWidth) = true ->
            (String.length q <= String.length p)%nat.

(** [splitTextToSize] hands back the text it was given, cut into lines:
    nothing is dropped at the cuts. *)
Definition conservingSplit : Prop :=
  forall pdf text maxlen, joined (splitTextToSize pdf text maxlen) = text.

End Fitting.


(** The fields that no method assigns. *)
Definition sameSetup (s s' : EasyPDF) : Prop :=
  pageWidth s' = pageWidth s /\ pageHeight s' = pageHeight s /\
  pagePaddingX s' = pagePaddingX s /\ pagePaddingY s' = pagePaddingY s /\
  fontSize s' = fontSize s /\ fontName s' = fontName s /\
  color s' = color s.

(** [keepsSetup m]: the method [m] assigns none of the setup fields. *)
Definition keepsSetup {A : Type} (m : M A) : Prop :=
  forall s, sameSetup s (post (m s)).

(** ** A concrete renderer

    A monospaced font whose glyphs are 10 mm wide, an A4 page of 210 x 297
    mm, and images of 200 x 100 pixels.  Used to run the methods. *)

Fixpoint chunks (n fuel : nat) (text : string) : list string :=
  match fuel with
  | O => []
  | S fuel' =>
      match text with
      | EmptyString => []
      | String _ _ => substring 0 n text :: chunks n fuel' (slice n text)
      end
  end.

Fixpoint monoWidth (text : string) : float :=
  match text with
  | EmptyString => 0
  | String _ text' => monoWidth text' + 10
  end.

(** The number of glyphs, at most [fuel], that fit into [maxlen] after
    [width]. *)
Fixpoint glyphsWithin (fuel : nat) (width maxlen : float) : nat :=
  match fuel with
  | O => O
  | S fuel' =>
      if gtb (width + 10) maxlen then O
      else S (glyphsWithin fuel' (width + 10) maxlen)
  end.

Definition monoSplit (text : string) (maxlen : float) : list string :=
  chunks (Nat.max 1 (glyphsWithin (String.length text) 0 maxlen))
    (String.length text) text.

Definition monoRenderer : Renderer :=
  {| getTextWidth := fun _ text => monoWidth text;
     splitTextToSize := fun _ text maxlen => monoSplit text maxlen;
     getImageProperties := fun _ _ => mkImageProperties 200 100;
     pageSizeGetWidth := fun _ => 210;
     pageSizeGetHeight := fun _ => 297 |}.

(** [new EasyPDF()] over [monoRenderer]. *)
Definition a4 : EasyPDF :=
  @constructor monoRenderer Options.empty.

(** * Properties *)

(** The comparisons are used as they stand. *)
Arguments gtb : simpl never.
Arguments neb : simpl never.
Arguments clientWidth : simpl never.
Arguments getLineHeight : simpl never.
Arguments getTextWriteY : simpl never.
Arguments remainWidth : simpl never.
Arguments paginates : simpl never.

(** ** Sequencing *)

Lemma post_bind {A B : Type} (m : M A) (k : A -> M B) (s : EasyPDF) :
  post (bind m k s) = post (k (ret (m s)) (post (m s))).
Proof. reflexivity. Qed.

Lemma ret_bind {A B : Type} (m : M A) (k : A -> M B) (s : EasyPDF) :
  ret (bind m k s) = ret (k (ret (m s)) (post (m s))).
Proof. reflexivity. Qed.


(** ** The pagination guard *)

Lemma checkWriteY_post (h : float) (s : EasyPDF) :
  post (checkWriteY h s) =
  if paginates h s then
    mkEasyPDF (pdf s ++ [AddPage; SetPage (pageIndex s + 1)])
      (pageIndex s + 1) (pagePaddingY s) (writeX s) (lastLineHeight s)
      (pageWidth s) (pageHeight s) (pagePaddingX s) (pagePaddingY s)
      (fontSize s) (fontName s) (color s)
  else s.
Proof.
  unfold checkWriteY, paginates, bind, when; cbn.
  destruct (gtb (writeY s + h) (pageHeight s - pagePaddingY s)); cbn.
  - unfold set_writeY, set_pdf, set_pageIndex; cbn.
    rewrite <- app_assoc. reflexivity.
  - reflexivity.
Qed.

Lemma checkWriteY_ytrace (h : float) (s : EasyPDF) :
  ytrace (checkWriteY h s) = [YCheck h].
Proof.
  unfold checkWriteY, paginates, bind, when; cbn.
  destruct (gtb (writeY s + h) (pageHeight s - pagePaddingY s));
    reflexivity.
Qed.

Lemma earlier_checkWriteY_post (h : float) (s : EasyPDF) :
  post (Earlier.checkWriteY h s) = post (checkWriteY h s).
Proof.
  unfold Earlier.checkWriteY, checkWriteY, bind, when; cbn.
  destruct (gtb (writeY s + h) (pageHeight s - pagePaddingY s));
    reflexivity.
Qed.

(** C1, as the code has it.  [checkWriteY h] paginates exactly when
    [writeY + h > pageHeight - pagePaddingY]; it then appends a page, selects
    it, increments [pageIndex] and resets [writeY] to [pagePaddingY], and
    touches nothing else ([writeX] included); otherwise the instance is
    unchanged.  The method returns [undefined] in both cases; the earlier
    revision, with the same effect on the instance, returns [false] when it
    paginated and [true] when it did not. *)
Theorem checkWriteY_paginates_exactly (h : float) (s : EasyPDF) :
  paginates h s = (pageHeight s - pagePaddingY s <? writeY s + h) /\
  post (checkWriteY h s) =
    (if paginates h s then
       mkEasyPDF (pdf s ++ [AddPage; SetPage (pageIndex s + 1)])
         (pageIndex s + 1) (pagePaddingY s) (writeX s) (lastLineHeight s)
         (pageWidth s) (pageHeight s) (pagePaddingX s) (pagePaddingY s)
         (fontSize s) (fontName s) (color s)
     else s) /\
  ret (checkWriteY h s) = JUndefined /\
  post (Earlier.checkWriteY h s) = post (checkWriteY h s) /\
  ret (Earlier.checkWriteY h s) = JBool (negb (paginates h s)).
Proof.
  split; [reflexivity|].
  split; [apply checkWriteY_post|].
  split; [reflexivity|].
  split; [apply earlier_checkWriteY_post|].
  unfold Earlier.checkWriteY, paginates, bind; cbn.
  destruct (gtb (writeY s + h) (pageHeight s - pagePaddingY s));
    reflexivity.
Qed.

(** C1 as stated fails on the return value: on a fresh A4 document a
    height of 300 paginates, yet the method returns [undefined], and the
    earlier revision returns [false]; a height of 5 does not paginate and the
    earlier revision returns [true]. *)
Lemma checkWriteY_return_counterexample :
  paginates 300 a4 = true /\
  pageIndex (post (checkWriteY 300 a4)) = 2%Z /\
  ret (checkWriteY 300 a4) <> JBool true /\
  ret (Earlier.checkWriteY 300 a4) <> JBool true /\
  paginates 5 a4 = false /\
  ret (Earlier.checkWriteY 5 a4) <> JBool false.
Proof.
  repeat split; try reflexivity; vm_compute; discriminate.
Qed.

Lemma checkWriteY_writeX (h : float) (s : EasyPDF) :
  writeX (post (checkWriteY h s)) = writeX s.
Proof.
  rewrite checkWriteY_post. destruct (paginates h s); reflexivity.
Qed.

Lemma checkWriteY_lastLineHeight (h : float) (s : EasyPDF) :
  lastLineHeight (post (checkWriteY h s)) = lastLineHeight s.
Proof.
  rewrite checkWriteY_post. destruct (paginates h s); reflexivity.
Qed.

Lemma checkWriteY_pageIndex (h : float) (s : EasyPDF) :
  pageIndex (post (checkWriteY h s)) =
  if paginates h s then (pageIndex s + 1)%Z else pageIndex s.
Proof.
  rewrite checkWriteY_post. destruct (paginates h s); reflexivity.
Qed.

(** ** The fields that stay *)

Lemma sameSetup_refl (s : EasyPDF) : sameSetup s s.
Proof. repeat split. Qed.

Lemma sameSetup_trans (s1 s2 s3 : EasyPDF) :
  sameSetup s1 s2 -> sameSetup s2 s3 -> sameSetup s1 s3.
Proof.
  unfold sameSetup. intros H1 H2.
  decompose [and] H1. decompose [and] H2.
  repeat split; congruence.
Qed.

Lemma keepsSetup_bind {A B : Type} (m : M A) (k : A -> M B) :
  keepsSetup m -> (forall a, keepsSetup (k a)) -> keepsSetup (bind m k).
Proof.
  intros Hm Hk s. rewrite post_bind.
  eapply sameSetup_trans; [apply Hm | apply Hk].
Qed.

Lemma keepsSetup_pure {A : Type} (a : A) : keepsSetup (pure a).
Proof. intro s. apply sameSetup_refl. Qed.

Lemma keepsSetup_get : keepsSetup get.
Proof. intro s. apply sameSetup_refl. Qed.

Lemma keepsSetup_emit (e : YEvent) : keepsSetup (emit e).
Proof. intro s. apply sameSetup_refl. Qed.

Lemma keepsSetup_pdfCall (c : PdfCall) : keepsSetup (pdfCall c).
Proof. intro s. repeat split. Qed.

Lemma keepsSetup_set_writeX (f : EasyPDF -> float) :
  keepsSetup (assign (fun s => set_writeX (f s) s)).
Proof. intro s. repeat split. Qed.

Lemma keepsSetup_set_lastLineHeight (v : float) :
  keepsSetup (assign (set_lastLineHeight v)).
Proof. intro s. repeat split. Qed.

Lemma keepsSetup_advanceWriteY (d : float) : keepsSetup (advanceWriteY d).
Proof. intro s. repeat split. Qed.

Lemma keepsSetup_when (c : bool) (m : M unit) :
  keepsSetup m -> keepsSetup (when c m).
Proof.
  intros Hm. destruct c; [exact Hm | apply keepsSetup_pure].
Qed.

Lemma keepsSetup_checkWriteY (h : float) : keepsSetup (checkWriteY h).
Proof.
  intro s. rewrite checkWriteY_post.
  destruct (paginates h s); repeat split.
Qed.

Lemma keepsSetup_breakLine : keepsSetup breakLine.
Proof.
  unfold breakLine.
  apply keepsSetup_bind; [apply keepsSetup_get | intro this].
  apply keepsSetup_when.
  apply keepsSetup_bind; [apply keepsSetup_set_writeX | intros _].
  apply keepsSetup_bind; [apply keepsSetup_get | intro this'].
  apply keepsSetup_advanceWriteY.
Qed.

Create HintDb setup discriminated.

#[export] Hint Resolve keepsSetup_pure keepsSetup_get keepsSetup_emit
  keepsSetup_pdfCall keepsSetup_set_writeX keepsSetup_set_lastLineHeight
  keepsSetup_advanceWriteY keepsSetup_when keepsSetup_checkWriteY
  keepsSetup_breakLine : setup.

(** Splits a sequence of statements and closes each with the lemmas of the
    [setup] database. *)
Ltac keeps_setup :=
  repeat first
    [ apply keepsSetup_bind; [ | intro ]
    | apply keepsSetup_when
    | solve [ auto with setup ] ].

(** ** The forced line break *)

Lemma breakLine_post (s : EasyPDF) :
  post (breakLine s) =
  if neb (writeX s) (pagePaddingX s) then
    set_writeY (writeY s + lastLineHeight s) (set_writeX (pagePaddingX s) s)
  else s.
Proof.
  unfold breakLine, bind, when; cbn.
  destruct (neb (writeX s) (pagePaddingX s)); reflexivity.
Qed.

Lemma breakLine_atMargin (s : EasyPDF) :
  sameNumber (writeX (post (breakLine s))) (pagePaddingX s).
Proof.
  rewrite breakLine_post.
  destruct (neb (writeX s) (pagePaddingX s)) eqn:E; cbn.
  - left. reflexivity.
  - right. unfold neb in E. apply negb_false_iff in E. exact E.
Qed.

Lemma breakLine_pdf (s : EasyPDF) : pdf (post (breakLine s)) = pdf s.
Proof.
  rewrite breakLine_post.
  destruct (neb (writeX s) (pagePaddingX s)); reflexivity.
Qed.

(** From here on the two helpers are used through their lemmas. *)
Arguments checkWriteY : simpl never.
Arguments breakLine : simpl never.

(** ** Horizontal rule *)

Lemma keepsSetup_addLine (options : LineOptions.t) :
  keepsSetup (addLine options).
Proof. unfold addLine. keeps_setup. Qed.

(** C6.  [addLine] forces a line break when the cursor is not at the left
    margin, paginates for [top + lineWidth], draws the line at
    [writeY + top] from [pagePaddingX] to [pageWidth - pagePaddingX],
    advances [writeY] by [top + lineWidth + bottom] and leaves [writeX] at
    the left margin: where the break has put it, or where it was when
    [writeX === pagePaddingX]. *)
Theorem addLine_rule (options : LineOptions.t) (s : EasyPDF) :
  let top := orDefault (LineOptions.top options) 4 in
  let bottom := orDefault (LineOptions.bottom options) 4 in
  let lineWidth := orDefault (LineOptions.lineWidth options) 0.5 in
  let color := orDefault (LineOptions.color options) (color s) in
  let broken := post (breakLine s) in
  let checked := post (checkWriteY (top + lineWidth) broken) in
  let s' := post (addLine options s) in
  broken =
    (if neb (writeX s) (pagePaddingX s) then
       set_writeY (writeY s + lastLineHeight s)
         (set_writeX (pagePaddingX s) s)
     else s) /\
  pdf s' =
    pdf checked ++
    [SetLineWidth lineWidth; SetDrawColor color;
     Line (pagePaddingX s) (writeY checked + top)
       (pageWidth s - pagePaddingX s) (writeY checked + top)] /\
  writeY s' = writeY checked + (top + lineWidth + bottom) /\
  pageIndex s' = pageIndex checked /\
  writeX s' = writeX broken /\
  sameNumber (writeX s') (pagePaddingX s) /\
  pagePaddingX s' = pagePaddingX s.
Proof.
  intros top bottom lineWidth color0 broken checked s'.
  assert (Hb : sameSetup s broken) by apply keepsSetup_breakLine.
  assert (Hc : sameSetup broken checked) by apply keepsSetup_checkWriteY.
  destruct (sameSetup_trans _ _ _ Hb Hc)
    as (Hpw & _ & Hpx & _ & _ & _ & _).
  assert (Hx : writeX s' = writeX broken).
  { unfold s', addLine, bind; cbn. apply checkWriteY_writeX. }
  split; [apply breakLine_post|].
  split.
  { unfold s', addLine, bind; cbn. fold top lineWidth broken checked.
    rewrite Hpw, Hpx. rewrite <- !app_assoc. reflexivity. }
  split; [reflexivity|].
  split; [reflexivity|].
  split; [exact Hx|].
  split; [rewrite Hx; apply breakLine_atMargin|].
  apply (keepsSetup_addLine options s).
Qed.

(** ** Vertical space *)

Lemma keepsSetup_addSpace (height : option float) : keepsSetup (addSpace height).
Proof. unfold addSpace. keeps_setup. Qed.

(** C8.  [addSpace h] ([h] is 5 when left out) forces a line break when
    the cursor is not at the left margin, paginates for [h], advances
    [writeY] by [h] and leaves [writeX] at [pagePaddingX]; it draws
    nothing. *)
Theorem addSpace_advances (height : option float) (s : EasyPDF) :
  let h := orDefault height 5 in
  let broken := post (breakLine s) in
  let checked := post (checkWriteY h broken) in
  let s' := post (addSpace height s) in
  broken =
    (if neb (writeX s) (pagePaddingX s) then
       set_writeY (writeY s + lastLineHeight s)
         (set_writeX (pagePaddingX s) s)
     else s) /\
  writeY s' = writeY checked + h /\
  pageIndex s' = pageIndex checked /\
  pdf s' = pdf checked /\
  writeX s' = pagePaddingX s /\
  pagePaddingX s' = pagePaddingX s.
Proof.
  intros h broken checked s'.
  assert (Hb : sameSetup s broken) by apply keepsSetup_breakLine.
  assert (Hc : sameSetup broken checked) by apply keepsSetup_checkWriteY.
  destruct (sameSetup_trans _ _ _ Hb Hc)
    as (_ & _ & Hpx & _ & _ & _ & _).
  split; [apply breakLine_post|].
  split; [reflexivity|].
  split; [reflexivity|].
  split; [reflexivity|].
  split; [exact Hpx|].
  apply (keepsSetup_addSpace height s).
Qed.

(** ** Text *)

Section Text.

Context {R : Renderer}.

Lemma keepsSetup_addTextBegin (fontSize : float) (color : Color)
    (article : bool) :
  keepsSetup (addTextBegin fontSize color article).
Proof. unfold addTextBegin. keeps_setup. Qed.

Lemma keepsSetup_addTextFirstLine (text : string) (fontSize left : float) :
  keepsSetup (addTextFirstLine text fontSize left).
Proof.
  unfold addTextFirstLine.
  apply keepsSetup_bind; [apply keepsSetup_get | intro this].
  destruct (scanFirstLine (pdf this) (remainWidth left this) text
              EmptyString 0) as [firstLine firstWidth].
  keeps_setup.
Qed.

Lemma keepsSetup_addTextLines (fontSize : float) (splitText : list string) :
  keepsSetup (addTextLines fontSize splitText).
Proof.
  induction splitText as [|text rest IH]; cbn [addTextLines].
  - apply keepsSetup_pure.
  - keeps_setup.
Qed.

Lemma keepsSetup_addTextRest (text firstLine : string) (fontSize : float) :
  keepsSetup (addTextRest text firstLine fontSize).
Proof.
  unfold addTextRest. apply keepsSetup_when.
  apply keepsSetup_bind; [apply keepsSetup_get | intro this].
  apply keepsSetup_addTextLines.
Qed.

Lemma keepsSetup_addTextRender (text : string) (fontSize : float)
    (color : Color) (left : float) (article : bool) :
  keepsSetup (addTextRender text fontSize color left article).
Proof.
  unfold addTextRender.
  apply keepsSetup_bind; [apply keepsSetup_addTextBegin | intros _].
  apply keepsSetup_bind; [apply keepsSetup_addTextFirstLine | intro fl].
  apply keepsSetup_addTextRest.
Qed.

Lemma keepsSetup_addTextEnd (fontSize right : float) (article : bool) :
  keepsSetup (addTextEnd fontSize right article).
Proof. unfold addTextEnd. destruct article; keeps_setup. Qed.

Lemma keepsSetup_addText (text : string) (options : TextOptions.t) :
  keepsSetup (addText text options).
Proof.
  unfold addText.
  apply keepsSetup_bind; [apply keepsSetup_get | intro this].
  apply keepsSetup_bind; [apply keepsSetup_addTextRender | intros _].
  apply keepsSetup_bind; [apply keepsSetup_addTextEnd | intros _].
  apply keepsSetup_pure.
Qed.

(** *** Strings and prefixes *)

Lemma append_empty_r (a : string) : (a ++ "")%string = a.
Proof. induction a as [|c a IH]; cbn; [reflexivity | now rewrite IH]. Qed.

Lemma append_assoc (a b c : string) :
  ((a ++ b) ++ c)%string = (a ++ (b ++ c))%string.
Proof. induction a as [|x a IH]; cbn; [reflexivity | now rewrite IH]. Qed.

Lemma append_one (a : string) (c : ascii) (b : string) :
  ((a ++ String c "") ++ b)%string = (a ++ String c b)%string.
Proof. rewrite append_assoc. reflexivity. Qed.

Lemma length_append (a b : string) :
  String.length (a ++ b) = (String.length a + String.length b)%nat.
Proof. induction a as [|x a IH]; cbn; [reflexivity | now rewrite IH]. Qed.

Lemma prefixOf_empty (text : string) : prefixOf "" text.
Proof. exists text. reflexivity. Qed.

Lemma prefixOf_refl (text : string) : prefixOf text text.
Proof. exists ""%string. now rewrite append_empty_r. Qed.

Lemma prefixOf_of_empty (p : string) : prefixOf p "" -> p = ""%string.
Proof. intros [r Hr]. destruct p; [reflexivity | discriminate]. Qed.

Lemma prefixOf_cons (c d : ascii) (p text : string) :
  prefixOf (String c p) (String d text) <-> c = d /\ prefixOf p text.
Proof.
  split.
  - intros [r Hr]. cbn in Hr. injection Hr as Hd Ht.
    split; [congruence | now exists r].
  - intros [-> [r ->]]. now exists r.
Qed.

Lemma prefixOf_append (p rest : string) : prefixOf p (p ++ rest).
Proof. now exists rest. Qed.

Lemma prefixOf_trans (p q text : string) :
  prefixOf p q -> prefixOf q text -> prefixOf p text.
Proof.
  intros [r ->] [r' ->]. exists (r ++ r')%string. apply append_assoc.
Qed.

Lemma prefixOf_length (p text : string) :
  prefixOf p text -> (String.length p <= String.length text)%nat.
Proof. intros [r ->]. rewrite length_append. lia. Qed.

(** Two prefixes of one text are ordered by their lengths. *)
Lemma prefixOf_shorter (p : string) :
  forall q text,
    prefixOf p text -> prefixOf q text ->
    (String.length p <= String.length q)%nat -> prefixOf p q.
Proof.
  induction p as [|c p IH]; intros q text Hp Hq Hlen.
  - apply prefixOf_empty.
  - destruct q as [|d q]; [cbn in Hlen; lia|].
    destruct text as [|e text]; [apply prefixOf_of_empty in Hp; discriminate|].
    apply prefixOf_cons in Hp. apply prefixOf_cons in Hq.
    destruct Hp as [-> Hp]. destruct Hq as [-> Hq].
    apply prefixOf_cons. split; [reflexivity|].
    apply (IH q text Hp Hq). cbn in Hlen. lia.
Qed.

(** *** The first-line loop *)

(** What the loop has computed when it stops: it has taken [taken] from
    [text], every probe on the way passed, and the probe on the next
    character, if one is left, did not. *)
Lemma scanFirstLine_stops (pdf : JsPDF) (remainWidth : float) (text : string) :
  forall firstLine firstWidth,
  exists taken rest,
    text = (taken ++ rest)%string /\
    fst (scanFirstLine pdf remainWidth text firstLine firstWidth)
      = (firstLine ++ taken)%string /\
    snd (scanFirstLine pdf remainWidth text firstLine firstWidth)
      = match taken with
        | EmptyString => firstWidth
        | String _ _ => getTextWidth pdf (firstLine ++ taken)
        end /\
    (forall q, q <> EmptyString -> prefixOf q taken ->
               fits pdf remainWidth (firstLine ++ q)) /\
    (forall c rest', rest = String c rest' ->
       gtb (getTextWidth pdf ((firstLine ++ taken) ++ String c ""))
         remainWidth = true).
Proof.
  induction text as [|c text IH]; intros firstLine firstWidth.
  - exists ""%string, ""%string. cbn.
    rewrite append_empty_r. repeat split.
    + intros q Hq Hp. apply prefixOf_of_empty in Hp. contradiction.
    + intros d rest' Hd. discriminate.
  - cbn [scanFirstLine].
    destruct (gtb (getTextWidth pdf (firstLine ++ String c "")) remainWidth)
      eqn:E.
    + exists ""%string, (String c text). cbn.
      rewrite append_empty_r. repeat split.
      * intros q Hq Hp. apply prefixOf_of_empty in Hp. contradiction.
      * intros d rest' Hd. injection Hd as -> _. exact E.
    + destruct (IH (firstLine ++ String c "")%string
                  (getTextWidth pdf (firstLine ++ String c "")))
        as (taken & rest & Ht & Hfst & Hsnd & Hfit & Hnext).
      exists (String c taken), rest.
      split; [cbn; now rewrite Ht|].
      split; [now rewrite Hfst, append_one|].
      split.
      { rewrite Hsnd. destruct taken as [|d taken].
        - reflexivity.
        - now rewrite append_one. }
      split.
      { intros q Hq Hp. destruct q as [|d q]; [contradiction|].
        apply prefixOf_cons in Hp. destruct Hp as [-> Hp].
        destruct q as [|e q].
        - exact E.
        - rewrite <- (append_one firstLine c (String e q)).
          apply Hfit; [discriminate | exact Hp]. }
      intros d rest' Hd. rewrite <- (append_one firstLine c taken).
      now apply (Hnext d rest').
Qed.

(** The fragment is a prefix of the text, and the prefixes of the text up
    to which every probe passes are those that are no longer than it. *)
Lemma scanFirstLine_longest (pdf : JsPDF) (remainWidth : float) (text : string) :
  let firstLine := fst (scanFirstLine pdf remainWidth text "" 0) in
  prefixOf firstLine text /\
  forall p, prefixOf p text ->
    (allFit pdf remainWidth p <->
     (String.length p <= String.length firstLine)%nat).
Proof.
  intro firstLine.
  destruct (scanFirstLine_stops pdf remainWidth text ""%string 0)
    as (taken & rest & Ht & Hfst & _ & Hfit & Hnext).
  cbn in Hfst, Hfit, Hnext. fold firstLine in Hfst.
  clearbody firstLine. subst firstLine.
  assert (Hpre : prefixOf taken text)
    by (rewrite Ht; apply prefixOf_append).
  split; [exact Hpre|].
  intros p Hp. split.
  - intro Hall.
    destruct (Nat.le_gt_cases (String.length p) (String.length taken))
      as [Hle|Hgt]; [exact Hle | exfalso].
    destruct rest as [|c rest'].
    + rewrite append_empty_r in Ht. subst text.
      apply prefixOf_length in Hp. lia.
    + assert (Hq : prefixOf (taken ++ String c "") p).
      { apply (prefixOf_shorter _ p text).
        - rewrite Ht, <- (append_one taken c rest').
          apply prefixOf_append.
        - exact Hp.
        - rewrite length_append. cbn. lia. }
      assert (Hne : (taken ++ String c "")%string <> ""%string)
        by (destruct taken; discriminate).
      specialize (Hall _ Hne Hq). unfold fits in Hall.
      rewrite (Hnext c rest' eq_refl) in Hall. discriminate.
  - intros Hle q Hq Hqp. apply Hfit; [exact Hq|].
    apply (prefixOf_trans q p); [exact Hqp|].
    apply (prefixOf_shorter p taken text Hp Hpre Hle).
Qed.

(** [firstWidth] is the measured width of the fragment, and 0 for the empty
    fragment. *)
Lemma scanFirstLine_width (pdf : JsPDF) (remainWidth : float) (text : string) :
  snd (scanFirstLine pdf remainWidth text "" 0) =
  match fst (scanFirstLine pdf remainWidth text "" 0) with
  | EmptyString => 0
  | String _ _ =>
      getTextWidth pdf (fst (scanFirstLine pdf remainWidth text "" 0))
  end.
Proof.
  destruct (scanFirstLine_stops pdf remainWidth text ""%string 0)
    as (taken & rest & _ & Hfst & Hsnd & _).
  cbn in Hfst, Hsnd. rewrite Hfst, Hsnd. reflexivity.
Qed.

(** The outcome of the first-line block of [addText]. *)
Lemma addTextFirstLine_out (text : string) (size left : float) (s : EasyPDF) :
  let firstLine :=
    fst (scanFirstLine (pdf s) (remainWidth left s) text "" 0) in
  let firstWidth :=
    snd (scanFirstLine (pdf s) (remainWidth left s) text "" 0) in
  let checked := post (checkWriteY (getLineHeight size) s) in
  ret (addTextFirstLine text size left s) = firstLine /\
  post (addTextFirstLine text size left s) =
    set_writeX (writeX checked + firstWidth)
      (set_pdf (pdf checked ++
                [Text firstLine (writeX checked)
                   (getTextWriteY size checked)]) checked) /\
  ytrace (addTextFirstLine text size left s) = [YCheck (getLineHeight size)].
Proof.
  unfold addTextFirstLine, bind. cbn.
  destruct (scanFirstLine (pdf s) (remainWidth left s) text "" 0)
    as [fl fw].
  cbn. rewrite checkWriteY_ytrace. repeat split.
Qed.

(** C2, as the code has it.  After the font state and the line break of
    article mode, [addText] computes [remainWidth = clientWidth - writeX -
    left - pagePaddingX] and splits off as first-line fragment the longest
    prefix of the text up to which every probe passes, that is, none of
    whose non-empty prefixes measures more than [remainWidth]; it then
    paginates for one line height, renders the fragment at
    [(writeX, writeY + fontSize * 0.4)] and advances [writeX] by the
    fragment's measured width, by 0 for the empty fragment.  For the empty
    text the fragment is empty, and the check and the render call happen
    all the same.  The rest of the call starts from there. *)
Theorem addText_first_line (text : string) (options : TextOptions.t)
    (s : EasyPDF) :
  let size := orDefault (TextOptions.fontSize options) (fontSize s) in
  let ink := orDefault (TextOptions.color options) (color s) in
  let left := orDefault (TextOptions.left options) 0 in
  let right := orDefault (TextOptions.right options) 0 in
  let article := orDefault (TextOptions.article options) false in
  let begun := post (addTextBegin size ink article s) in
  let remain := clientWidth begun - writeX begun - left - pagePaddingX begun in
  let firstLine := fst (scanFirstLine (pdf begun) remain text "" 0) in
  let firstWidth := snd (scanFirstLine (pdf begun) remain text "" 0) in
  let checked := post (checkWriteY (getLineHeight size) begun) in
  let first := addTextFirstLine text size left begun in
  prefixOf firstLine text /\
  (text = ""%string -> firstLine = ""%string) /\
  (forall p, prefixOf p text ->
     (allFit (pdf begun) remain p <->
      (String.length p <= String.length firstLine)%nat)) /\
  firstWidth =
    match firstLine with
    | EmptyString => 0
    | String _ _ => getTextWidth (pdf begun) firstLine
    end /\
  ret first = firstLine /\
  pdf (post first) =
    pdf checked ++
    [Text firstLine (writeX begun) (writeY checked + size * 0.4)] /\
  writeX (post first) = writeX begun + firstWidth /\
  writeY (post first) = writeY checked /\
  pageIndex (post first) = pageIndex checked /\
  post (addText text options s) =
    post ((addTextRest text firstLine size ;;
           addTextEnd size right article) (post first)).
Proof.
  intros size ink left right article begun remain firstLine firstWidth
    checked first.
  destruct (scanFirstLine_longest (pdf begun) remain text) as [Hpre Hlong].
  split; [exact Hpre|].
  split.
  { intro Ht. revert Hpre. unfold firstLine. rewrite Ht.
    apply prefixOf_of_empty. }
  split; [exact Hlong|].
  split; [apply scanFirstLine_width|].
  destruct (addTextFirstLine_out text size left begun)
    as (Hret & Hpost & _).
  fold first in Hret, Hpost.
  change (remainWidth left begun) with remain in Hret, Hpost.
  fold firstLine firstWidth checked in Hret, Hpost.
  assert (Hx : writeX checked = writeX begun) by apply checkWriteY_writeX.
  split; [exact Hret|].
  split; [rewrite Hpost; cbn [pdf set_writeX set_pdf]; rewrite Hx;
          reflexivity|].
  split; [rewrite Hpost; cbn [writeX set_writeX set_pdf]; rewrite Hx;
          reflexivity|].
  split; [rewrite Hpost; reflexivity|].
  split; [rewrite Hpost; reflexivity|].
  rewrite <- Hret. reflexivity.
Qed.

(** C2 as stated fails when no room is left on the line.  On a fresh A4
    document with 10 mm glyphs, a text of 35 characters leaves the cursor at
    [writeX = 190]; for the next text [remainWidth] is [-10], the fragment
    is empty, and the empty fragment, of width 0, is not a prefix whose
    measured width is at most [remainWidth]. *)
Lemma addText_first_line_counterexample :
  let s :=
    post (@addText monoRenderer "aaaaaaaaaaaaaaaaaaaaaaaaaaaaaaaaaaa"
            TextOptions.empty a4) in
  let begun := post (addTextBegin 16 [10; 10; 10] false s) in
  writeX begun = 190 /\
  remainWidth 0 begun = -10 /\
  ret (@addTextFirstLine monoRenderer "abc" 16 0 begun) = ""%string /\
  @getTextWidth monoRenderer (pdf begun) "" = 0 /\
  ~ @longestPrefixWithin monoRenderer (pdf begun) (remainWidth 0 begun)
      "abc" "".
Proof.
  cbv zeta.
  split; [vm_compute; reflexivity|].
  split; [vm_compute; reflexivity|].
  split; [vm_compute; reflexivity|].
  split; [vm_compute; reflexivity|].
  intros (_ & H & _).
  vm_compute in H. discriminate H.
Qed.

Arguments addTextRender : simpl never.

(** C4.  Whatever the text, the options and the cursor before the call,
    [addArticle] leaves [writeX] at the left margin [pagePaddingX]. *)
Theorem addArticle_ends_at_margin (text : string) (options : TextOptions.t)
    (s : EasyPDF) :
  writeX (post (addArticle text options s)) = pagePaddingX s /\
  pagePaddingX (post (addArticle text options s)) = pagePaddingX s.
Proof.
  split.
  - unfold addArticle, addText, bind; cbn.
    apply (keepsSetup_addTextRender text _ _ _ true s).
  - apply (keepsSetup_addText text (TextOptions.withArticle options) s).
Qed.

(** C3.  In inline mode the end of [addText] adds [right] to [writeX], and
    wraps (resets [writeX] to [pagePaddingX], advances [writeY] by the line
    height) exactly when the sum exceeds [clientWidth + pageIndex], the
    page index being the one after the text was rendered; without a wrap
    [writeY] stays. *)
Theorem addText_inline_wrap (text : string) (options : TextOptions.t)
    (s : EasyPDF) :
  orDefault (TextOptions.article options) false = false ->
  let size := orDefault (TextOptions.fontSize options) (fontSize s) in
  let right := orDefault (TextOptions.right options) 0 in
  let rendered :=
    post (addTextRender text size
            (orDefault (TextOptions.color options) (color s))
            (orDefault (TextOptions.left options) 0) false s) in
  let x := writeX rendered + right in
  let threshold := clientWidth s + numberOfZ (pageIndex rendered) in
  let s' := post (addText text options s) in
  gtb x threshold = (threshold <? x) /\
  writeX s' = (if gtb x threshold then pagePaddingX s else x) /\
  writeY s' =
    (if gtb x threshold then writeY rendered + getLineHeight size
     else writeY rendered) /\
  pageIndex s' = pageIndex rendered /\
  pdf s' = pdf rendered /\
  lastLineHeight s' = getLineHeight size.
Proof.
  intros Ha size right rendered x threshold s'.
  assert (Hr : sameSetup s rendered) by apply keepsSetup_addTextRender.
  destruct Hr as (Hpw & _ & Hpx & _).
  assert (Es' : s' = post (addTextEnd size right false rendered)).
  { unfold s', addText, bind; cbn. rewrite Ha. reflexivity. }
  assert (Et : clientWidth rendered + numberOfZ (pageIndex rendered)
               = threshold).
  { unfold threshold, clientWidth. rewrite Hpw, Hpx. reflexivity. }
  split; [reflexivity|].
  rewrite Es'. unfold addTextEnd, inlineWraps, bind; cbn.
  change (clientWidth (set_writeX (writeX rendered + right) rendered))
    with (clientWidth rendered).
  rewrite Et. fold x.
  change (clientWidth s + numberOfZ (pageIndex rendered)) with threshold.
  destruct (gtb x threshold); cbn; rewrite ?Hpx; repeat split.
Qed.

End Text.

(** ** Images *)

Section Image.

Context {R : Renderer}.

Lemma keepsSetup_addImage (img : string) (options : ImageOptions.t) :
  keepsSetup (addImage img options).
Proof. unfold addImage. keeps_setup. Qed.

(** What [addImage] does: the height of ['auto'] is the width times the
    image's height over its width, the image is drawn centred, [writeX] goes back to the
    margin and [writeY] advances by the height of the image. *)
Lemma addImage_out (img : string) (options : ImageOptions.t) (s : EasyPDF) :
  let width := orDefault (ImageOptions.width options) (clientWidth s) in
  let height :=
    match orDefault (ImageOptions.height options) Auto with
    | Auto =>
        (width * ipHeight (getImageProperties (pdf s) img))
        / ipWidth (getImageProperties (pdf s) img)
    | Height h => h
    end in
  let broken := post (breakLine s) in
  let centred := set_writeX ((pageWidth s - width) / 2) broken in
  let checked := post (checkWriteY height centred) in
  let s' := post (addImage img options s) in
  pdf s' =
    pdf checked ++
    [AddImage img "PNG" ((pageWidth s - width) / 2) (writeY checked)
       width height] /\
  writeX s' = pagePaddingX s /\
  writeY s' = writeY checked + height /\
  pageIndex s' = pageIndex checked.
Proof.
  intros width height broken centred checked s'.
  assert (Hb : sameSetup s broken) by apply keepsSetup_breakLine.
  assert (Hc : sameSetup centred checked) by apply keepsSetup_checkWriteY.
  destruct Hb as (Hpw & _ & Hpx & _).
  destruct Hc as (_ & _ & Hpx' & _).
  assert (Es' : s' =
    set_writeY (writeY checked + height)
      (set_writeX (pagePaddingX checked)
         (set_pdf (pdf checked ++
                   [AddImage img "PNG" (writeX checked) (writeY checked)
                      width height]) checked))).
  { unfold s', addImage, bind; cbn. fold width height broken.
    rewrite Hpw. reflexivity. }
  rewrite Es'. cbn.
  split.
  { unfold checked at 2. rewrite checkWriteY_writeX. reflexivity. }
  split; [|split; reflexivity].
  rewrite Hpx'. unfold centred. cbn. exact Hpx.
Qed.

(** C10.  The format handed to jsPDF is ['PNG'] whatever [options.format]
    is: the call does not depend on the option at all. *)
Theorem addImage_format_fixed (img : string)
    (top bottom width : option float) (height : option ImageHeight)
    (format : option string) (s : EasyPDF) :
  addImage img (ImageOptions.mk top bottom width height format) s =
  addImage img (ImageOptions.mk top bottom width height None) s /\
  exists checked x y w h,
    pdf (post (addImage img
                 (ImageOptions.mk top bottom width height format) s)) =
    pdf checked ++ [AddImage img "PNG" x y w h] /\
    (forall c, In c (pdf checked) -> In c (pdf s) \/ c = AddPage \/
                                     exists n, c = SetPage n).
Proof.
  split; [reflexivity|].
  destruct (addImage_out img
              (ImageOptions.mk top bottom width height format) s)
    as (Hpdf & _).
  cbv zeta in Hpdf.
  eexists _, _, _, _, _. split; [exact Hpdf|].
  intros c Hc. rewrite checkWriteY_post in Hc.
  match type of Hc with
  | context [paginates ?h ?t] => destruct (paginates h t)
  end; cbn in Hc; rewrite ?breakLine_pdf in Hc.
  - apply in_app_or in Hc. destruct Hc as [Hc|[Hc|[Hc|[]]]].
    + now left.
    + right; left. now symmetry.
    + right; right. eexists. symmetry. exact Hc.
  - now left.
Qed.

End Image.

(** C7, on the code.  [addImage] drops [top] and [bottom]: on a fresh A4
    document an image of 200 x 100 pixels drawn 190 mm wide with margins of
    4 mm advances [writeY] by the 95 mm of its height, not by 103 mm; in
    general the outcome of the call does not depend on the two options. *)
Theorem addImage_margins_unused :
  (forall (R : Renderer) img top bottom width height format s,
     addImage img (ImageOptions.mk top bottom width height format) s =
     addImage img (ImageOptions.mk None None width height format) s) /\
  let s' :=
    post (@addImage monoRenderer "img"
            (ImageOptions.mk (Some 4) (Some 4) (Some 190) (Some Auto) None)
            a4) in
  writeY s' = writeY a4 + 95 /\
  writeY s' <> writeY a4 + (95 + 4 + 4) /\
  pageIndex s' = pageIndex a4.
Proof.
  split; [reflexivity|].
  cbv zeta.
  split; [vm_compute; reflexivity|].
  split; [|reflexivity].
  intro H. apply (f_equal (fun x => x =? 113)) in H.
  vm_compute in H. discriminate H.
Qed.

(** C9, on the code.  The values the public methods return: [this] for
    [addText], [addArticle], [addLine], [addSpace] and [save], and
    [undefined] for [addImage], which has no [return] statement. *)
Theorem public_methods_return (R : Renderer) (text img filename : string)
    (textOptions : TextOptions.t) (lineOptions : LineOptions.t)
    (imageOptions : ImageOptions.t) (height : option float) (s : EasyPDF) :
  ret (addText text textOptions s) = JThis /\
  ret (addArticle text textOptions s) = JThis /\
  ret (addLine lineOptions s) = JThis /\
  ret (addSpace height s) = JThis /\
  ret (save filename s) = JThis /\
  ret (addImage img imageOptions s) = JUndefined.
Proof.
  repeat split.
Qed.

(** ** The cursor after a call *)

Lemma sameSetup_clientWidth (s s' : EasyPDF) :
  sameSetup s s' -> clientWidth s' = clientWidth s.
Proof.
  intros (Hw & _ & Hx & _). unfold clientWidth. now rewrite Hw, Hx.
Qed.




Section TextCursor.

Context {R : Renderer}.




End TextCursor.

Arguments addTextRender : simpl never.
Arguments addTextBegin : simpl never.
Arguments addTextFirstLine : simpl never.
Arguments addTextRest : simpl never.
Arguments addTextEnd : simpl never.

Section Cursor.

Context {R : Renderer}.




(** The end of [addText]: the state it leaves and the advance it makes. *)
Lemma addTextEnd_out (size right : float) (article : bool) (r : EasyPDF) :
  let moved := set_writeX (writeX r + right) r in
  let wraps := if article then true else inlineWraps moved in
  post (addTextEnd size right article r) =
    set_lastLineHeight (getLineHeight size)
      (if wraps then
         set_writeY (writeY r + getLineHeight size)
           (set_writeX (pagePaddingX r) (if article then r else moved))
       else moved) /\
  ytrace (addTextEnd size right article r) =
    (if wraps then [YAdvance (getLineHeight size)] else []).
Proof.
  unfold addTextEnd, bind, when. destruct article; cbn.
  - split; reflexivity.
  - destruct (inlineWraps (set_writeX (writeX r + right) r)); cbn;
      split; reflexivity.
Qed.

Lemma addText_out (text : string) (options : TextOptions.t) (s : EasyPDF) :
  let size := orDefault (TextOptions.fontSize options) (fontSize s) in
  let ink := orDefault (TextOptions.color options) (color s) in
  let left := orDefault (TextOptions.left options) 0 in
  let right := orDefault (TextOptions.right options) 0 in
  let article := orDefault (TextOptions.article options) false in
  let r := addTextRender text size ink left article s in
  post (addText text options s) =
    post (addTextEnd size right article (post r)) /\
  ytrace (addText text options s) =
    ytrace r ++ ytrace (addTextEnd size right article (post r)).
Proof.
  unfold addText, bind; cbn. rewrite app_nil_r. split; reflexivity.
Qed.







Lemma keepsSetup_call (op : Op) : keepsSetup (call op).
Proof.
  destruct op; cbn [call].
  - apply keepsSetup_addText.
  - unfold addArticle. apply keepsSetup_addText.
  - apply keepsSetup_addLine.
  - apply keepsSetup_addImage.
  - apply keepsSetup_addSpace.
  - unfold save. keeps_setup.
Qed.

Lemma keepsSetup_calls (ops : list Op) : keepsSetup (calls ops).
Proof.
  induction ops as [|op ops IH]; cbn [calls].
  - apply keepsSetup_pure.
  - apply keepsSetup_bind; [apply keepsSetup_call | intros _; exact IH].
Qed.



End Cursor.


(** ** Runs on the concrete renderer *)

(** The inline wrap on a run: ["ab"] with a right margin of 175 mm ends at
    205 mm, beyond the threshold of 191, and wraps. *)
Lemma addText_inline_wrap_witness :
  let options := TextOptions.mk None None None (Some 175) None in
  let s' := post (@addText monoRenderer "ab" options a4) in
  orDefault (TextOptions.article options) false = false /\
  writeX s' = 10 /\
  writeY s' = 10 + 16 * 0.55 /\
  pageIndex s' = 1%Z.
Proof.
  cbv zeta.
  split; [reflexivity|].
  destruct (addText_inline_wrap (R := monoRenderer) "ab"
              (TextOptions.mk None None None (Some 175) None) a4 eq_refl)
    as (_ & Hx & Hy & Hp & _).
  split; [rewrite Hx; vm_compute; reflexivity|].
  split; [rewrite Hy; vm_compute; reflexivity|].
  rewrite Hp. vm_compute. reflexivity.
Defined.


(** Sums are rounded as the code rounds them: after [addSpace(246.08)] and
    [addSpace(30.92)] on a fresh A4 document the second check compares
    [10 + 246.08 + 30.92], which is above 287 as a binary64 number, and a
    page is added. *)
Lemma addSpace_rounded_sum_paginates :
  let s := post (addSpace (Some 246.08) a4) in
  writeY s = 10 + 246.08 /\
  writeY s + 30.92 = 287.00000000000006 /\
  paginates 30.92 s = true /\
  pageIndex (post (addSpace (Some 30.92) s)) = 2%Z.
Proof.
  cbv zeta. repeat split; vm_compute; reflexivity.
Qed.

(** In the earlier revision [addArticle] ended like any other [addText]:
    on a fresh A4 document the cursor stays behind the two glyphs. *)
Lemma earlier_addArticle_stays_inline :
  writeX (post (@Earlier.addArticle monoRenderer "ab" TextOptions.empty a4))
  = 30.
Proof. vm_compute. reflexivity. Qed.

(** * Further properties *)

(** ** What no call changes *)

Section Setup.

Context {R : Renderer}.

(** X1. No sequence of public calls changes the page size, the margins, the
    default font size or the default colour: the options of a call are not
    kept for the next one. *)
Theorem calls_keep_setup (ops : list Op) (s : EasyPDF) :
  let s' := post (calls ops s) in
  pageWidth s' = pageWidth s /\ pageHeight s' = pageHeight s /\
  pagePaddingX s' = pagePaddingX s /\ pagePaddingY s' = pagePaddingY s /\
  fontSize s' = fontSize s /\ color s' = color s /\
  clientWidth s' = clientWidth s /\ clientHeight s' = clientHeight s.
Proof.
  intro s'.
  destruct (keepsSetup_calls ops s) as (Hw & Hh & Hx & Hy & Hf & _ & Hc).
  fold s' in Hw, Hh, Hx, Hy, Hf, Hc.
  unfold clientWidth, clientHeight. rewrite Hw, Hh, Hx, Hy.
  repeat split; assumption.
Qed.

(** X2. The constructor does not store [options.color]: whatever colour is
    passed, every run starts from the same instance, and the default colour
    stays [[10, 10, 10]] through any sequence of calls. *)
Theorem constructor_color_unused (size : option string)
    (fontSize : option float) (fontName : option string)
    (pagePaddingX pagePaddingY : option float) (color0 : option Color)
    (ops : list Op) :
  let given :=
    Options.mk size fontSize fontName pagePaddingX pagePaddingY color0 in
  let none :=
    Options.mk size fontSize fontName pagePaddingX pagePaddingY None in
  calls ops (constructor given) = calls ops (constructor none) /\
  color (post (calls ops (constructor given))) = [10; 10; 10].
Proof.
  intros given none. split; [reflexivity|].
  destruct (keepsSetup_calls ops (constructor given))
    as (_ & _ & _ & _ & _ & _ & Hc).
  rewrite Hc. reflexivity.
Qed.

End Setup.

(** ** Pages *)

Lemma keeps_bind (P : EasyPDF -> Prop) {A B : Type} (m : M A)
    (k : A -> M B) :
  keeps P m -> (forall a, keeps P (k a)) -> keeps P (bind m k).
Proof.
  intros Hm Hk s Hs. rewrite post_bind. apply Hk. apply Hm. exact Hs.
Qed.

Lemma keeps_pure (P : EasyPDF -> Prop) {A : Type} (a : A) :
  keeps P (pure a).
Proof. intros s Hs. exact Hs. Qed.

Lemma keeps_get (P : EasyPDF -> Prop) : keeps P get.
Proof. intros s Hs. exact Hs. Qed.

Lemma keeps_emit (P : EasyPDF -> Prop) (e : YEvent) : keeps P (emit e).
Proof. intros s Hs. exact Hs. Qed.

Lemma keeps_when (P : EasyPDF -> Prop) (c : bool) (m : M unit) :
  keeps P m -> keeps P (when c m).
Proof. intro Hm. destruct c; [exact Hm | apply keeps_pure]. Qed.

Lemma addedPages_app (log log' : JsPDF) :
  addedPages (log ++ log') = (addedPages log + addedPages log')%Z.
Proof.
  induction log as [|c log IH]; [reflexivity|].
  destruct c; cbn [addedPages app]; rewrite ?IH; lia.
Qed.

Lemma lastSetPage_app (log log' : JsPDF) :
  forall current,
    lastSetPage current (log ++ log')
    = lastSetPage (lastSetPage current log) log'.
Proof.
  induction log as [|c log IH]; intro current; [reflexivity|].
  destruct c; cbn; apply IH.
Qed.

(** Assignments to the cursor do not touch the pages. *)
Lemma keeps_pages_cursor (from : Z) (f : EasyPDF -> EasyPDF) :
  (forall s, pdf (f s) = pdf s /\ pageIndex (f s) = pageIndex s) ->
  keeps (pagesInSync from) (assign f).
Proof.
  intros Hf s (H1 & H2 & H3). destruct (Hf s) as [Hp Hi].
  unfold pagesInSync; cbn [post assign]. rewrite Hp, Hi.
  repeat split; assumption.
Qed.

Lemma keeps_pages_pdfCall (from : Z) (c : PdfCall) :
  pageNeutral c = true -> keeps (pagesInSync from) (pdfCall c).
Proof.
  intros Hc s (H1 & H2 & H3).
  unfold pagesInSync, pdfCall; cbn [post assign pdf pageIndex set_pdf].
  rewrite addedPages_app, lastSetPage_app, H2.
  destruct c; try discriminate; cbn [addedPages lastSetPage];
    (split; [lia | split; [reflexivity | exact H3]]).
Qed.

Lemma keeps_pages_checkWriteY (from : Z) (h : float) :
  keeps (pagesInSync from) (checkWriteY h).
Proof.
  intros s (H1 & H2 & H3). rewrite checkWriteY_post.
  destruct (paginates h s); [|repeat split; assumption].
  unfold pagesInSync; cbn [pdf pageIndex].
  rewrite addedPages_app, lastSetPage_app. cbn [addedPages lastSetPage].
  split; [lia | split; [reflexivity | lia]].
Qed.

(** Splits a method into its statements and closes each of them. *)
Ltac keeps_pages :=
  repeat match goal with
    | |- keeps _ (checkWriteY _) => apply keeps_pages_checkWriteY
    | |- keeps _ (bind _ _) => apply keeps_bind; [ | intro ]
    | |- keeps _ (when _ _) => apply keeps_when
    | |- keeps _ (pure _) => apply keeps_pure
    | |- keeps _ get => apply keeps_get
    | |- keeps _ (emit _) => apply keeps_emit
    | |- keeps _ (pdfCall _) => apply keeps_pages_pdfCall; reflexivity
    | |- keeps _ (assign _) =>
        apply keeps_pages_cursor; intro; split; reflexivity
    | |- keeps _ _ => assumption
    | |- keeps _ _ => progress cbv beta zeta
    end.

Section Pages.

Context {R : Renderer}.

Lemma keeps_pages_addTextLines (from : Z) (size : float)
    (splitText : list string) :
  keeps (pagesInSync from) (addTextLines size splitText).
Proof.
  induction splitText as [|text rest IH]; cbn [addTextLines].
  - apply keeps_pure.
  - unfold advanceWriteY. keeps_pages.
Qed.

Lemma keeps_pages_addText (from : Z) (text : string)
    (options : TextOptions.t) :
  keeps (pagesInSync from) (addText text options).
Proof.
  unfold addText, addTextRender, addTextBegin, addTextFirstLine,
    addTextRest, addTextEnd, advanceWriteY.
  apply keeps_bind; [apply keeps_get | intro this].
  apply keeps_bind; [|intro; apply keeps_bind; [|intro; apply keeps_pure]].
  - apply keeps_bind; [keeps_pages | intros _].
    apply keeps_bind.
    + apply keeps_bind; [apply keeps_get | intro this'].
      destruct (scanFirstLine (pdf this')
                  (remainWidth (orDefault (TextOptions.left options) 0)
                     this') text "" 0) as [firstLine firstWidth].
      keeps_pages.
    + intro firstLine. apply keeps_when.
      apply keeps_bind; [apply keeps_get | intro this'].
      apply keeps_pages_addTextLines.
  - destruct (orDefault (TextOptions.article options) false); keeps_pages.
Qed.

Lemma keeps_pages_call (from : Z) (op : Op) :
  keeps (pagesInSync from) (call op).
Proof.
  destruct op; cbn [call].
  - apply keeps_pages_addText.
  - apply keeps_pages_addText.
  - unfold addLine, breakLine, advanceWriteY. keeps_pages.
  - unfold addImage, breakLine, advanceWriteY. keeps_pages.
  - unfold addSpace, breakLine, advanceWriteY. keeps_pages.
  - unfold save. keeps_pages.
Qed.

Lemma keeps_pages_calls (from : Z) (ops : list Op) :
  keeps (pagesInSync from) (calls ops).
Proof.
  induction ops as [|op ops IH]; cbn [calls].
  - apply keeps_pure.
  - apply keeps_bind; [apply keeps_pages_call | intros _; exact IH].
Qed.

(** X3. The instance and jsPDF agree on the pages after any sequence of
    public calls on a new instance: [pageIndex] is one more than the number
    of [addPage] calls made, it is the argument of the last [setPage] call
    (1 when none was made), and it never falls below the page a state was on
    before. *)
Theorem pages_in_sync (options : Options.t) (ops ops' : list Op) :
  let s := post (calls ops (constructor options)) in
  let s' := post (calls ops' s) in
  pageIndex s' = (1 + addedPages (pdf s'))%Z /\
  lastSetPage 1 (pdf s') = pageIndex s' /\
  (1 <= pageIndex s <= pageIndex s')%Z.
Proof.
  intros s s'.
  assert (H0 : pagesInSync 1 (constructor options))
    by (repeat split; cbn; lia).
  assert (Hs : pagesInSync 1 s) by (apply keeps_pages_calls; exact H0).
  assert (Hs' : pagesInSync (pageIndex s) s').
  { apply keeps_pages_calls. destruct Hs as (H1 & H2 & _).
    repeat split; [exact H1 | exact H2 | lia]. }
  destruct Hs as (_ & _ & Hge). destruct Hs' as (H1 & H2 & Hle).
  repeat split; assumption.
Qed.

End Pages.

(** ** What is drawn *)

Lemma substring_all (text : string) :
  substring 0 (String.length text) text = text.
Proof.
  induction text as [|c text IH]; cbn; [reflexivity | now rewrite IH].
Qed.

Lemma slice_0 (text : string) : slice 0 text = text.
Proof. unfold slice. rewrite Nat.sub_0_r. apply substring_all. Qed.

Lemma slice_append (p rest : string) :
  slice (String.length p) (p ++ rest) = rest.
Proof.
  induction p as [|c p IH]; [apply slice_0 | exact IH].
Qed.

Lemma substring_slice (text : string) :
  forall n, (substring 0 n text ++ slice n text)%string = text.
Proof.
  induction text as [|c text IH]; intro n.
  - destruct n; reflexivity.
  - destruct n as [|n].
    + cbn [substring]. rewrite slice_0. reflexivity.
    + cbn [substring append]. f_equal. exact (IH n).
Qed.

Lemma slice_length (text : string) :
  forall n, String.length (slice n text) = (String.length text - n)%nat.
Proof.
  intro n.
  pose proof (substring_slice text n) as H.
  apply (f_equal String.length) in H. rewrite length_append in H.
  assert (Hs : String.length (substring 0 n text)
               = Nat.min n (String.length text)).
  { clear H. revert n. induction text as [|c text IH]; intro n.
    - destruct n; reflexivity.
    - destruct n as [|n]; [reflexivity|]. cbn. now rewrite IH. }
  lia.
Qed.

Lemma prefixOf_same_length (p text : string) :
  prefixOf p text -> String.length p = String.length text -> p = text.
Proof.
  intros [rest ->] Hlen. rewrite length_append in Hlen.
  destruct rest; [now rewrite append_empty_r | cbn in Hlen; lia].
Qed.

Lemma texts_app (log log' : JsPDF) :
  texts (log ++ log') = texts log ++ texts log'.
Proof.
  induction log as [|c log IH]; [reflexivity|].
  destruct c; cbn; rewrite ?IH; reflexivity.
Qed.

Lemma joined_app (lines lines' : list string) :
  joined (lines ++ lines') = (joined lines ++ joined lines')%string.
Proof.
  induction lines as [|line lines IH]; [reflexivity|].
  cbn. rewrite IH. symmetry. apply append_assoc.
Qed.

Lemma checkWriteY_texts (h : float) (s : EasyPDF) :
  texts (pdf (post (checkWriteY h s))) = texts (pdf s).
Proof.
  rewrite checkWriteY_post. destruct (paginates h s); [|reflexivity].
  cbn [pdf]. rewrite texts_app. cbn. apply app_nil_r.
Qed.

Section Drawn.

Context {R : Renderer}.

Lemma addTextBegin_pdf (size : float) (ink : Color) (article : bool)
    (s : EasyPDF) :
  pdf (post (addTextBegin size ink article s))
  = pdf s ++ [SetFontSize size; SetTextColor ink].
Proof.
  unfold addTextBegin, bind, when; cbn.
  destruct (article && neb (writeX s) (pagePaddingX s))%bool; cbn;
    rewrite <- app_assoc; reflexivity.
Qed.

Lemma addTextLines_texts (size : float) (splitText : list string) :
  forall s,
    texts (pdf (post (addTextLines size splitText s)))
    = texts (pdf s) ++ splitText.
Proof.
  induction splitText as [|text rest IH]; intro s.
  - cbn. now rewrite app_nil_r.
  - cbn [addTextLines]. rewrite !post_bind. rewrite IH.
    cbn [ret get post].
    set (c := post (checkWriteY (getLineHeight size) _)).
    assert (Hc : texts (pdf c) = texts (pdf s))
      by (unfold c; rewrite checkWriteY_texts; reflexivity).
    destruct (isNil rest); cbn; rewrite texts_app, Hc; cbn;
      rewrite <- app_assoc; reflexivity.
Qed.

(** The strings [addText] hands to [pdf.text]. *)
Lemma addText_texts (text : string) (options : TextOptions.t)
    (s : EasyPDF) :
  let size := orDefault (TextOptions.fontSize options) (fontSize s) in
  let ink := orDefault (TextOptions.color options) (color s) in
  let left := orDefault (TextOptions.left options) 0 in
  let article := orDefault (TextOptions.article options) false in
  let first :=
    addTextFirstLine text size left
      (post (addTextBegin size ink article s)) in
  prefixOf (ret first) text /\
  texts (pdf (post (addText text options s))) =
    texts (pdf s) ++
    ret first ::
    (if (String.length (ret first) =? String.length text)%nat then []
     else splitTextToSize (pdf (post first))
            (slice (String.length (ret first)) text)
            (clientWidth (post first))).
Proof.
  intros size ink left article first.
  set (begun := post (addTextBegin size ink article s)) in *.
  destruct (addTextFirstLine_out text size left begun)
    as (Hret & Hpost & _).
  fold first in Hret, Hpost.
  destruct (scanFirstLine_longest (pdf begun) (remainWidth left begun) text)
    as [Hpre _].
  rewrite <- Hret in Hpre.
  split; [exact Hpre|].
  destruct (addText_out text options s) as [Ht _].
  cbv zeta in Ht. rewrite Ht. clear Ht.
  destruct (addTextEnd_out size (orDefault (TextOptions.right options) 0)
              article
              (post (addTextRender text size ink left article s)))
    as [He _].
  cbv zeta in He. fold size ink left article. rewrite He. clear He.
  assert (Hb : texts (pdf begun) = texts (pdf s)).
  { unfold begun. rewrite addTextBegin_pdf, texts_app. apply app_nil_r. }
  assert (Hr : texts (pdf (post (addTextRender text size ink left article s)))
               = texts (pdf s) ++
                 ret first ::
                 (if (String.length (ret first) =? String.length text)%nat
                  then []
                  else splitTextToSize (pdf (post first))
                         (slice (String.length (ret first)) text)
                         (clientWidth (post first)))).
  { unfold addTextRender. rewrite !post_bind.
    fold begun. fold first.
    assert (Hf : texts (pdf (post first)) = texts (pdf s) ++ [ret first]).
    { rewrite Hpost. cbn [pdf set_writeX set_pdf].
      rewrite texts_app, checkWriteY_texts, Hb, <- Hret. reflexivity. }
    unfold addTextRest, when.
    destruct (String.length (ret first) =? String.length text)%nat;
      cbn [negb].
    - cbn. exact Hf.
    - rewrite post_bind. cbn [ret get post].
      rewrite addTextLines_texts, Hf, <- app_assoc. reflexivity. }
  destruct article;
    [|destruct (inlineWraps _)]; cbn [pdf set_lastLineHeight set_writeY
                                        set_writeX]; exact Hr.
Qed.

(** X4. The strings [addText] draws are the first-line fragment and then the
    lines into which jsPDF splits the rest of the text (no further line when
    the fragment is the whole text); fragment and rest make up the text,
    with no character lost or drawn twice at the cut. *)
Theorem addText_draws_text (text : string) (options : TextOptions.t)
    (s : EasyPDF) :
  let size := orDefault (TextOptions.fontSize options) (fontSize s) in
  let ink := orDefault (TextOptions.color options) (color s) in
  let left := orDefault (TextOptions.left options) 0 in
  let article := orDefault (TextOptions.article options) false in
  let first :=
    addTextFirstLine text size left
      (post (addTextBegin size ink article s)) in
  let firstLine := ret first in
  let rest := slice (String.length firstLine) text in
  (firstLine ++ rest)%string = text /\
  (rest = ""%string <-> firstLine = text) /\
  texts (pdf (post (addText text options s))) =
    texts (pdf s) ++
    firstLine ::
    (if (String.length firstLine =? String.length text)%nat then []
     else splitTextToSize (pdf (post first)) rest (clientWidth s)).
Proof.
  intros size ink left article first firstLine rest.
  destruct (addText_texts text options s) as [Hpre Ht].
  cbv zeta in Hpre, Ht. fold size ink left article first in Hpre, Ht.
  fold firstLine in Hpre, Ht. fold rest in Ht.
  assert (Hcut : (firstLine ++ rest)%string = text).
  { destruct Hpre as [r Hr]. unfold rest. rewrite Hr at 1.
    rewrite slice_append. symmetry. exact Hr. }
  split; [exact Hcut|]. split.
  - split; intro H.
    + rewrite H, append_empty_r in Hcut. exact Hcut.
    + rewrite H in Hcut at 1.
      apply (f_equal String.length) in Hcut.
      rewrite length_append in Hcut.
      destruct rest; [reflexivity | cbn in Hcut; lia].
  - rewrite Ht.
    assert (Hcw : clientWidth (post first) = clientWidth s).
    { apply sameSetup_clientWidth.
      eapply sameSetup_trans;
        [apply keepsSetup_addTextBegin | apply keepsSetup_addTextFirstLine]. }
    rewrite Hcw. reflexivity.
Qed.

(** X5. When [splitTextToSize] drops nothing at its cuts, the strings drawn
    by [addText], put together, are the text: every character of the text is
    drawn once and in order. *)
Theorem addText_draws_every_character (text : string)
    (options : TextOptions.t) (s : EasyPDF) :
  conservingSplit ->
  joined (texts (pdf (post (addText text options s))))
  = (joined (texts (pdf s)) ++ text)%string.
Proof.
  intro Hsplit.
  destruct (addText_texts text options s) as [Hpre Ht].
  cbv zeta in Hpre, Ht. rewrite Ht, joined_app. f_equal.
  cbn [joined].
  match goal with
  | |- context [(String.length ?fl =? String.length text)%nat] =>
      set (firstLine := fl) in *; clearbody firstLine
  end.
  destruct (Nat.eqb_spec (String.length firstLine) (String.length text))
    as [Heq|Hne].
  - cbn. rewrite append_empty_r.
    apply prefixOf_same_length; assumption.
  - rewrite Hsplit. destruct Hpre as [r ->].
    rewrite slice_append. reflexivity.
Qed.

End Drawn.

(** ** Room on the page *)

(** After [checkWriteY h] the guard is false at the cursor when it is false
    at the top of a page. *)
Lemma checkWriteY_room (h : float) (s : EasyPDF) :
  paginatesAtTop h s = false ->
  paginates h (post (checkWriteY h s)) = false.
Proof.
  intro Hh. rewrite checkWriteY_post.
  destruct (paginates h s) eqn:E.
  - exact Hh.
  - exact E.
Qed.

Lemma sameSetup_paginatesAtTop (h : float) (s s' : EasyPDF) :
  sameSetup s s' -> paginatesAtTop h s' = paginatesAtTop h s.
Proof.
  intros (_ & Hh & _ & Hy & _). unfold paginatesAtTop. now rewrite Hh, Hy.
Qed.

(** X6. What the pagination guard is for: when an element of height [h]
    passes the guard at the top of a page, it passes the guard at the
    cursor [checkWriteY h] leaves, and a second [checkWriteY h] changes
    nothing. *)
Theorem checkWriteY_makes_room (h : float) (s : EasyPDF) :
  paginatesAtTop h s = false ->
  gtb (writeY (post (checkWriteY h s)) + h)
    (pageHeight s - pagePaddingY s) = false /\
  post (checkWriteY h (post (checkWriteY h s))) = post (checkWriteY h s).
Proof.
  intro Hh.
  pose proof (checkWriteY_room h s Hh) as Hroom.
  split.
  - destruct (keepsSetup_checkWriteY h s) as (_ & Hph & _ & Hpy & _).
    rewrite <- Hph, <- Hpy. exact Hroom.
  - rewrite (checkWriteY_post h (post (checkWriteY h s))), Hroom.
    reflexivity.
Qed.

Lemma appends_refl (Q : PdfCall -> Prop) (s : EasyPDF) : appends Q s s.
Proof. exists []. split; [now rewrite app_nil_r | constructor]. Qed.

Lemma appends_trans (Q : PdfCall -> Prop) (s1 s2 s3 : EasyPDF) :
  appends Q s1 s2 -> appends Q s2 s3 -> appends Q s1 s3.
Proof.
  intros (a & Ha & Qa) (b & Hb & Qb). exists (a ++ b). split.
  - rewrite Hb, Ha. symmetry. apply app_assoc.
  - apply Forall_app. split; assumption.
Qed.

Lemma appends_same_pdf (Q : PdfCall -> Prop) (s s' : EasyPDF) :
  pdf s' = pdf s -> appends Q s s'.
Proof. intro H. exists []. split; [now rewrite app_nil_r | constructor]. Qed.

Lemma appends_checkWriteY (size limit h : float) (s : EasyPDF) :
  appends (lineWithin size limit) s (post (checkWriteY h s)).
Proof.
  rewrite checkWriteY_post. destruct (paginates h s).
  - eexists. split; [reflexivity|]. repeat constructor.
  - apply appends_refl.
Qed.

Section Vertical.

Context {R : Renderer}.

(** X7. An image whose height passes the pagination guard at the top of a
    page is drawn where it passes the guard: with [y] the vertical position
    handed to jsPDF, [y + height > pageHeight - pagePaddingY] is false; the
    image is drawn horizontally at [(pageWidth - width) / 2], and the
    cursor is left at [y + height]. *)
Theorem addImage_within_page (img : string) (options : ImageOptions.t)
    (s : EasyPDF) :
  let width := orDefault (ImageOptions.width options) (clientWidth s) in
  let height :=
    match orDefault (ImageOptions.height options) Auto with
    | Auto =>
        (width * ipHeight (getImageProperties (pdf s) img))
        / ipWidth (getImageProperties (pdf s) img)
    | Height h => h
    end in
  paginatesAtTop height s = false ->
  exists log y,
    pdf (post (addImage img options s)) =
      log ++ [AddImage img "PNG" ((pageWidth s - width) / 2) y
                width height] /\
    gtb (y + height) (pageHeight s - pagePaddingY s) = false /\
    writeY (post (addImage img options s)) = y + height.
Proof.
  intros width height Hh.
  destruct (addImage_out img options s) as (Hpdf & _ & Hy & _).
  cbv zeta in Hpdf, Hy. fold width height in Hpdf, Hy.
  set (centred := set_writeX ((pageWidth s - width) / 2)
                    (post (breakLine s))) in *.
  exists (pdf (post (checkWriteY height centred))),
         (writeY (post (checkWriteY height centred))).
  split; [exact Hpdf|]. split; [|exact Hy].
  assert (Hs : sameSetup s centred).
  { eapply sameSetup_trans; [apply keepsSetup_breakLine | repeat split]. }
  assert (Hsc : sameSetup s (post (checkWriteY height centred))).
  { eapply sameSetup_trans; [exact Hs | apply keepsSetup_checkWriteY]. }
  destruct Hsc as (_ & Hph & _ & Hpy & _).
  rewrite <- Hph, <- Hpy.
  apply checkWriteY_room.
  rewrite (sameSetup_paginatesAtTop height s centred Hs). exact Hh.
Qed.

Lemma appends_addTextLines (size limit : float) (splitText : list string) :
  forall s,
    paginatesAtTop (getLineHeight size) s = false ->
    pageHeight s - pagePaddingY s = limit ->
    appends (lineWithin size limit) s (post (addTextLines size splitText s)).
Proof.
  induction splitText as [|text rest IH]; intros s Hroom Hlimit.
  - apply appends_refl.
  - cbn [addTextLines]. rewrite !post_bind.
    set (a := post (assign (fun s0 => set_writeX (pagePaddingX s0) s0)
                      (post (advanceWriteY (getLineHeight size) s)))).
    set (c := post (checkWriteY (getLineHeight size) a)).
    cbn [ret get post].
    set (t := post (pdfCall (Text text (writeX c) (getTextWriteY size c)) c)).
    set (u := post (when (isNil rest)
                      (assign (fun s0 =>
                         set_writeX
                           (pagePaddingX s0 + getTextWidth (pdf s0) text) s0))
                      t)).
    assert (Hsa : sameSetup s a) by (repeat split).
    assert (Hac : sameSetup a c) by apply keepsSetup_checkWriteY.
    assert (Hct : sameSetup c t) by (repeat split).
    assert (Htu : sameSetup t u)
      by (unfold u; destruct (isNil rest); repeat split).
    assert (Hsc : sameSetup s c) by (eauto using sameSetup_trans).
    assert (Hsu : sameSetup s u) by (eauto using sameSetup_trans).
    assert (Hc : gtb (writeY c + getLineHeight size) limit = false).
    { rewrite <- Hlimit.
      destruct Hsc as (_ & Hph & _ & Hpy & _). rewrite <- Hph, <- Hpy.
      apply checkWriteY_room.
      rewrite (sameSetup_paginatesAtTop _ s a Hsa). exact Hroom. }
    apply (appends_trans _ s a);
      [apply appends_same_pdf; reflexivity|].
    apply (appends_trans _ a c); [apply appends_checkWriteY|].
    apply (appends_trans _ c t).
    { eexists. split; [reflexivity|]. constructor; [|constructor].
      exists (writeY c). split; [reflexivity | exact Hc]. }
    apply (appends_trans _ t u).
    { apply appends_same_pdf. unfold u. destruct (isNil rest); reflexivity. }
    apply IH.
    + rewrite (sameSetup_paginatesAtTop _ s u Hsu). exact Hroom.
    + destruct Hsu as (_ & -> & _ & -> & _). exact Hlimit.
Qed.

(** X9. No line of text is drawn where the pagination guard would send it
    on: when a line of the font size passes the guard at the top of a
    page, every line [addText] draws has its baseline at
    [cursor + fontSize * 0.4] for a cursor at which
    [cursor + fontSize * 0.55 > pageHeight - pagePaddingY] is false. *)
Theorem addText_lines_within (text : string) (options : TextOptions.t)
    (s : EasyPDF) :
  let size := orDefault (TextOptions.fontSize options) (fontSize s) in
  paginatesAtTop (getLineHeight size) s = false ->
  exists added,
    pdf (post (addText text options s)) = pdf s ++ added /\
    Forall (lineWithin size (pageHeight s - pagePaddingY s)) added.
Proof.
  intros size Hroom.
  change (appends (lineWithin size (pageHeight s - pagePaddingY s)) s
            (post (addText text options s))).
  set (Q := lineWithin size (pageHeight s - pagePaddingY s)).
  destruct (addText_out text options s) as [Ht _].
  cbv zeta in Ht. fold size in Ht.
  set (ink := orDefault (TextOptions.color options) (color s)) in *.
  set (left := orDefault (TextOptions.left options) 0) in *.
  set (article := orDefault (TextOptions.article options) false) in *.
  set (rendered := post (addTextRender text size ink left article s)) in *.
  apply (appends_trans Q s rendered).
  - unfold rendered, addTextRender. rewrite !post_bind.
    set (begun := post (addTextBegin size ink article s)).
    destruct (addTextFirstLine_out text size left begun)
      as (_ & Hpost & _).
    set (first := addTextFirstLine text size left begun) in *.
    set (checked := post (checkWriteY (getLineHeight size) begun)) in *.
    assert (Hsb : sameSetup s begun) by apply keepsSetup_addTextBegin.
    assert (Hsc : sameSetup s checked).
    { eapply sameSetup_trans; [exact Hsb | apply keepsSetup_checkWriteY]. }
    assert (Hsf : sameSetup s (post first)).
    { eapply sameSetup_trans; [exact Hsb|].
      apply keepsSetup_addTextFirstLine. }
    apply (appends_trans Q s begun).
    { eexists. split; [apply addTextBegin_pdf | repeat constructor]. }
    apply (appends_trans Q begun checked); [apply appends_checkWriteY|].
    apply (appends_trans Q checked (post first)).
    { eexists. split; [rewrite Hpost; reflexivity|].
      constructor; [|constructor].
      exists (writeY checked). split; [reflexivity|].
      destruct Hsc as (_ & Hph & _ & Hpy & _). rewrite <- Hph, <- Hpy.
      apply checkWriteY_room.
      rewrite (sameSetup_paginatesAtTop _ s begun Hsb). exact Hroom. }
    unfold addTextRest, when.
    destruct (negb (String.length (ret first) =? String.length text)%nat).
    + rewrite post_bind. cbn [ret get post].
      apply appends_addTextLines.
      * rewrite (sameSetup_paginatesAtTop _ s _ Hsf). exact Hroom.
      * destruct Hsf as (_ & -> & _ & -> & _). reflexivity.
    + apply appends_refl.
  - apply appends_same_pdf. rewrite Ht.
    destruct (addTextEnd_out size
                (orDefault (TextOptions.right options) 0) article rendered)
      as [He _].
    cbv zeta in He. rewrite He.
    destruct article; [|destruct (inlineWraps _)]; reflexivity.
Qed.

End Vertical.

(** ** Inline texts on one line *)

Section Inline.

Context {R : Renderer}.

(** After the loop over the wrapped lines the last call on jsPDF is the
    text of a line at the cursor, and a further line passes the guard at
    the cursor. *)
Lemma addTextLines_last_line (size limit : float) (splitText : list string) :
  forall s,
    paginatesAtTop (getLineHeight size) s = false ->
    pageHeight s - pagePaddingY s = limit ->
    ((exists log t x,
        pdf s = log ++ [Text t x (writeY s + size * 0.4)]) /\
     gtb (writeY s + getLineHeight size) limit = false) ->
    (exists log t x,
       pdf (post (addTextLines size splitText s))
       = log ++ [Text t x (writeY (post (addTextLines size splitText s))
                           + size * 0.4)]) /\
    gtb (writeY (post (addTextLines size splitText s)) + getLineHeight size)
      limit = false.
Proof.
  induction splitText as [|text rest IH]; intros s Hroom Hlimit Hs.
  - exact Hs.
  - cbn [addTextLines]. rewrite !post_bind.
    set (a := post (assign (fun s0 => set_writeX (pagePaddingX s0) s0)
                      (post (advanceWriteY (getLineHeight size) s)))).
    set (c := post (checkWriteY (getLineHeight size) a)).
    cbn [ret get post].
    set (t := post (pdfCall (Text text (writeX c) (getTextWriteY size c)) c)).
    set (u := post (when (isNil rest)
                      (assign (fun s0 =>
                         set_writeX
                           (pagePaddingX s0 + getTextWidth (pdf s0) text) s0))
                      t)).
    assert (Hsa : sameSetup s a) by (repeat split).
    assert (Hac : sameSetup a c) by apply keepsSetup_checkWriteY.
    assert (Hct : sameSetup c t) by (repeat split).
    assert (Htu : sameSetup t u)
      by (unfold u; destruct (isNil rest); repeat split).
    assert (Hsc : sameSetup s c) by (eauto using sameSetup_trans).
    assert (Hsu : sameSetup s u) by (eauto using sameSetup_trans).
    assert (Hc : gtb (writeY c + getLineHeight size) limit = false).
    { rewrite <- Hlimit.
      destruct Hsc as (_ & Hph & _ & Hpy & _). rewrite <- Hph, <- Hpy.
      apply checkWriteY_room.
      rewrite (sameSetup_paginatesAtTop _ s a Hsa). exact Hroom. }
    assert (Hu : pdf u = pdf c ++ [Text text (writeX c)
                                     (writeY u + size * 0.4)]
                 /\ writeY u = writeY c).
    { unfold u. destruct (isNil rest); split; reflexivity. }
    destruct Hu as [Hup Huy].
    apply IH.
    + rewrite (sameSetup_paginatesAtTop _ s u Hsu). exact Hroom.
    + destruct Hsu as (_ & -> & _ & -> & _). exact Hlimit.
    + split; [now exists (pdf c), text, (writeX c)|].
      rewrite Huy. exact Hc.
Qed.

(** What [addText] has rendered ends with the text of a line at the
    cursor, and a further line of the same size passes the guard at the
    cursor. *)
Lemma addTextRender_last_line (text : string) (size : float) (ink : Color)
    (left : float) (article : bool) (s : EasyPDF) :
  paginatesAtTop (getLineHeight size) s = false ->
  let rendered := post (addTextRender text size ink left article s) in
  (exists log t x,
     pdf rendered = log ++ [Text t x (writeY rendered + size * 0.4)]) /\
  gtb (writeY rendered + getLineHeight size)
    (pageHeight s - pagePaddingY s) = false.
Proof.
  intros Hroom rendered.
  unfold rendered, addTextRender. rewrite !post_bind.
  set (begun := post (addTextBegin size ink article s)).
  destruct (addTextFirstLine_out text size left begun) as (_ & Hpost & _).
  set (first := addTextFirstLine text size left begun) in *.
  set (checked := post (checkWriteY (getLineHeight size) begun)) in *.
  assert (Hsb : sameSetup s begun) by apply keepsSetup_addTextBegin.
  assert (Hsc : sameSetup s checked).
  { eapply sameSetup_trans; [exact Hsb | apply keepsSetup_checkWriteY]. }
  assert (Hsf : sameSetup s (post first)).
  { eapply sameSetup_trans; [exact Hsb|].
    apply keepsSetup_addTextFirstLine. }
  assert (Hc : gtb (writeY checked + getLineHeight size)
                 (pageHeight s - pagePaddingY s) = false).
  { destruct Hsc as (_ & Hph & _ & Hpy & _). rewrite <- Hph, <- Hpy.
    apply checkWriteY_room.
    rewrite (sameSetup_paginatesAtTop _ s begun Hsb). exact Hroom. }
  assert (Hf : (exists log t x,
                  pdf (post first)
                  = log ++ [Text t x (writeY (post first) + size * 0.4)]) /\
               gtb (writeY (post first) + getLineHeight size)
                 (pageHeight s - pagePaddingY s) = false).
  { rewrite Hpost. cbn [pdf writeY set_writeX set_pdf].
    split; [|exact Hc]. eexists _, _, _. reflexivity. }
  unfold addTextRest, when.
  destruct (negb (String.length (ret first) =? String.length text)%nat).
  - rewrite post_bind. cbn [ret get post].
    apply addTextLines_last_line.
    + rewrite (sameSetup_paginatesAtTop _ s _ Hsf). exact Hroom.
    + destruct Hsf as (_ & -> & _ & -> & _). reflexivity.
    + exact Hf.
  - exact Hf.
Qed.

(** X12. Two inline texts of the same font size share a line.  When an
    inline [addText] has not wrapped at its end, and a line of the font
    size passes the pagination guard at the top of a page, the next inline
    [addText] of the same font size adds no page and draws its first-line
    fragment on the baseline of the last line of the first text, at the
    [writeX] the first text has left. *)
Theorem inline_texts_share_line (text1 text2 : string)
    (options1 options2 : TextOptions.t) (s : EasyPDF) :
  let size := orDefault (TextOptions.fontSize options1) (fontSize s) in
  let right1 := orDefault (TextOptions.right options1) 0 in
  let rendered1 :=
    post (addTextRender text1 size
            (orDefault (TextOptions.color options1) (color s))
            (orDefault (TextOptions.left options1) 0) false s) in
  let s1 := post (addText text1 options1 s) in
  let ink2 := orDefault (TextOptions.color options2) (color s) in
  let first2 :=
    addTextFirstLine text2 size (orDefault (TextOptions.left options2) 0)
      (post (addTextBegin size ink2 false s1)) in
  orDefault (TextOptions.article options1) false = false ->
  orDefault (TextOptions.article options2) false = false ->
  orDefault (TextOptions.fontSize options2) (fontSize s) = size ->
  paginatesAtTop (getLineHeight size) s = false ->
  inlineWraps (set_writeX (writeX rendered1 + right1) rendered1) = false ->
  (exists log t x,
     pdf s1 = log ++ [Text t x (writeY s1 + size * 0.4)]) /\
  writeX s1 = writeX rendered1 + right1 /\
  pdf (post first2) =
    pdf s1 ++
    [SetFontSize size; SetTextColor ink2;
     Text (ret first2) (writeX s1) (writeY s1 + size * 0.4)] /\
  pageIndex (post first2) = pageIndex s1 /\
  post (addText text2 options2 s1) =
    post ((addTextRest text2 (ret first2) size ;;
           addTextEnd size (orDefault (TextOptions.right options2) 0)
             false) (post first2)).
Proof.
  intros size right1 rendered1 s1 ink2 first2 Ha1 Ha2 Hsize Hh Hwrap.
  destruct (addTextRender_last_line text1 size
              (orDefault (TextOptions.color options1) (color s))
              (orDefault (TextOptions.left options1) 0) false s Hh)
    as [Hlast Hfit].
  fold rendered1 in Hlast, Hfit.
  assert (Hsr : sameSetup s rendered1) by apply keepsSetup_addTextRender.
  (* the state the first text leaves *)
  assert (Es1 : s1 = set_lastLineHeight (getLineHeight size)
                       (set_writeX (writeX rendered1 + right1) rendered1)).
  { unfold s1. destruct (addText_out text1 options1 s) as [Ht _].
    cbv zeta in Ht. rewrite Ht. fold size right1. rewrite Ha1.
    fold rendered1.
    destruct (addTextEnd_out size right1 false rendered1) as [He _].
    cbv zeta in He. rewrite He, Hwrap. reflexivity. }
  assert (Hss1 : sameSetup s s1).
  { rewrite Es1. eapply sameSetup_trans; [exact Hsr | repeat split]. }
  assert (Hy1 : writeY s1 = writeY rendered1) by (rewrite Es1; reflexivity).
  assert (Hp1 : pdf s1 = pdf rendered1) by (rewrite Es1; reflexivity).
  split; [rewrite Hp1, Hy1; exact Hlast|].
  split; [rewrite Es1; reflexivity|].
  (* the second text starts without a line break and without a page break *)
  set (begun2 := post (addTextBegin size ink2 false s1)) in *.
  assert (Eb2 : begun2 = set_pdf (pdf s1 ++ [SetFontSize size;
                                              SetTextColor ink2]) s1).
  { unfold begun2, addTextBegin, bind, when; cbn.
    unfold set_pdf; cbn. rewrite <- app_assoc. reflexivity. }
  assert (Hnp : paginates (getLineHeight size) begun2 = false).
  { unfold paginates. rewrite Eb2.
    cbn [writeY pageHeight pagePaddingY set_pdf].
    rewrite Hy1. destruct Hss1 as (_ & -> & _ & -> & _). exact Hfit. }
  destruct (addTextFirstLine_out text2 size
              (orDefault (TextOptions.left options2) 0) begun2)
    as (Hret & Hpost & _).
  fold first2 in Hret, Hpost.
  rewrite checkWriteY_post, Hnp in Hpost.
  assert (Hf2 : pdf (post first2) =
                pdf s1 ++ [SetFontSize size; SetTextColor ink2;
                           Text (ret first2) (writeX s1)
                             (writeY s1 + size * 0.4)]).
  { rewrite Hpost, Hret, Eb2. cbn [pdf writeX writeY set_writeX set_pdf].
    unfold getTextWriteY. cbn [writeY]. rewrite <- app_assoc. reflexivity. }
  split; [exact Hf2|].
  split; [rewrite Hpost, Eb2; reflexivity|].
  unfold addText, addTextRender, bind. cbn [ret get post].
  assert (Hfs : fontSize s1 = fontSize s)
    by (destruct Hss1 as (_ & _ & _ & _ & H & _); exact H).
  assert (Hc : color s1 = color s)
    by (destruct Hss1 as (_ & _ & _ & _ & _ & _ & H); exact H).
  rewrite Hfs, Hc, Hsize, Ha2. fold ink2. fold begun2. fold first2.
  reflexivity.
Qed.

End Inline.

(** ** The earlier revision *)

Section EarlierRevision.

Context {R : Renderer}.

(** X15. In the earlier revision article mode only means starting on a new
    line: [addArticle] leaves the instance as the forced line break followed
    by [addText] with the same options does.  (When the options ask for
    article mode themselves, this needs a left margin that is a number:
    with [NaN], [writeX !== pagePaddingX] stays true after the break, and
    [addText] would break the line once more.) *)
Theorem earlier_addArticle_is_break_then_addText (text : string)
    (options : TextOptions.t) (s : EasyPDF) :
  (orDefault (TextOptions.article options) false
   && neb (pagePaddingX s) (pagePaddingX s))%bool = false ->
  post (Earlier.addArticle text options s) =
  post (Earlier.addText text options (post (breakLine s))).
Proof.
  intro Hnum.
  set (b := post (breakLine s)).
  assert (Hsb : sameSetup s b) by apply keepsSetup_breakLine.
  assert (Hfs : fontSize b = fontSize s)
    by (destruct Hsb as (_ & _ & _ & _ & H & _); exact H).
  assert (Hc : color b = color s)
    by (destruct Hsb as (_ & _ & _ & _ & _ & _ & H); exact H).
  assert (Hbegin : forall size ink,
    post (addTextBegin size ink true s)
    = post (addTextBegin size ink
              (orDefault (TextOptions.article options) false) b)).
  { intros size ink. unfold b. rewrite breakLine_post.
    unfold addTextBegin, bind, when; cbn.
    destruct (neb (writeX s) (pagePaddingX s)) eqn:E; cbn.
    - rewrite Hnum. reflexivity.
    - rewrite E, andb_false_r. reflexivity. }
  unfold Earlier.addArticle, Earlier.addText, addTextRender, bind.
  cbn [ret get post TextOptions.withArticle TextOptions.fontSize
       TextOptions.color TextOptions.left TextOptions.right
       TextOptions.article].
  change (orDefault (Some true) false) with true.
  rewrite Hfs, Hc.
  rewrite <- (Hbegin _ _).
  reflexivity.
Qed.

End EarlierRevision.

(** ** Rules and paragraphs *)

(** X13. A rule whose top margin and stroke pass the pagination guard at
    the top of a page is drawn where they pass it: with [y] the cursor at
    which the rule is drawn, [y + (top + lineWidth) > pageHeight -
    pagePaddingY] is false; the rule runs from [pagePaddingX] to
    [pageWidth - pagePaddingX] at [y + top], and the cursor is left at
    [y + (top + lineWidth + bottom)]. *)
Theorem addLine_within_page (options : LineOptions.t) (s : EasyPDF) :
  let top := orDefault (LineOptions.top options) 4 in
  let bottom := orDefault (LineOptions.bottom options) 4 in
  let lineWidth := orDefault (LineOptions.lineWidth options) 0.5 in
  paginatesAtTop (top + lineWidth) s = false ->
  exists log y,
    pdf (post (addLine options s)) =
      log ++
      [SetLineWidth lineWidth;
       SetDrawColor (orDefault (LineOptions.color options) (color s));
       Line (pagePaddingX s) (y + top)
         (pageWidth s - pagePaddingX s) (y + top)] /\
    gtb (y + (top + lineWidth)) (pageHeight s - pagePaddingY s) = false /\
    writeY (post (addLine options s)) = y + (top + lineWidth + bottom).
Proof.
  intros top bottom lineWidth Hh.
  set (broken := post (breakLine s)).
  set (checked := post (checkWriteY (top + lineWidth) broken)).
  assert (Hb : sameSetup s broken) by apply keepsSetup_breakLine.
  assert (Hc : sameSetup broken checked) by apply keepsSetup_checkWriteY.
  destruct (sameSetup_trans _ _ _ Hb Hc) as (Hpw & Hph & Hpx & Hpy & _).
  exists (pdf checked), (writeY checked).
  split.
  { unfold addLine, bind; cbn. fold top lineWidth broken checked.
    rewrite Hpw, Hpx. rewrite <- !app_assoc. reflexivity. }
  split; [|reflexivity].
  rewrite <- Hph, <- Hpy. apply checkWriteY_room.
  rewrite (sameSetup_paginatesAtTop _ s broken Hb). exact Hh.
Qed.

Section Paragraph.

Context {R : Renderer}.

(** X14. A paragraph starts and ends at the left margin: [addArticle] draws
    its first-line fragment at an [x] that is [pagePaddingX], with
    [clientWidth - x - left - pagePaddingX] to fill; after the last line it
    only moves the cursor down by one line height, and it leaves [writeX]
    at [pagePaddingX]. *)
Theorem addArticle_paragraph (text : string) (options : TextOptions.t)
    (s : EasyPDF) :
  let size := orDefault (TextOptions.fontSize options) (fontSize s) in
  let ink := orDefault (TextOptions.color options) (color s) in
  let left := orDefault (TextOptions.left options) 0 in
  let begun := post (addTextBegin size ink true s) in
  let first := addTextFirstLine text size left begun in
  let rendered := post (addTextRender text size ink left true s) in
  (exists log x y,
     pdf (post first) = log ++ [Text (ret first) x y] /\
     sameNumber x (pagePaddingX s) /\
     ret first =
       fst (scanFirstLine (pdf begun)
              (clientWidth s - x - left - pagePaddingX s) text "" 0)) /\
  writeY (post (addArticle text options s))
  = writeY rendered + getLineHeight size /\
  pageIndex (post (addArticle text options s)) = pageIndex rendered /\
  pdf (post (addArticle text options s)) = pdf rendered /\
  writeX (post (addArticle text options s)) = pagePaddingX s.
Proof.
  intros size ink left begun first rendered.
  assert (Hsb : sameSetup s begun) by apply keepsSetup_addTextBegin.
  assert (Hx : sameNumber (writeX begun) (pagePaddingX s)).
  { unfold begun, addTextBegin, bind, when; cbn.
    destruct (neb (writeX s) (pagePaddingX s)) eqn:E; cbn.
    - left. reflexivity.
    - right. unfold neb in E. apply negb_false_iff in E. exact E. }
  split.
  { destruct (addTextFirstLine_out text size left begun)
      as (Hret & Hpost & _).
    fold first in Hret, Hpost.
    exists (pdf (post (checkWriteY (getLineHeight size) begun))),
           (writeX begun),
           (getTextWriteY size (post (checkWriteY (getLineHeight size) begun))).
    split.
    - rewrite Hpost, Hret. cbn [pdf set_writeX set_pdf].
      rewrite checkWriteY_writeX. reflexivity.
    - split; [exact Hx|].
      rewrite Hret. unfold remainWidth.
      rewrite (sameSetup_clientWidth _ _ Hsb).
      destruct Hsb as (_ & _ & -> & _). reflexivity. }
  unfold addArticle.
  destruct (addText_out text (TextOptions.withArticle options) s)
    as [Ht _].
  cbv zeta in Ht.
  cbn [TextOptions.withArticle TextOptions.fontSize TextOptions.color
       TextOptions.left TextOptions.right TextOptions.article] in Ht.
  change (orDefault (Some true) false) with true in Ht.
  fold size ink left rendered in Ht. rewrite Ht.
  destruct (addTextEnd_out size (orDefault (TextOptions.right options) 0)
              true rendered) as [He _].
  cbv zeta in He. rewrite He.
  split; [reflexivity|]. split; [reflexivity|]. split; [reflexivity|].
  cbn [writeX set_lastLineHeight set_writeY set_writeX].
  apply (keepsSetup_addTextRender text size ink left true s).
Qed.

End Paragraph.

(** With [NaN] for the left margin the earlier [addArticle] and the forced
    line break followed by an [addText] in article mode differ: the break
    is made once by the one and twice by the other. *)
Lemma earlier_addArticle_nan_margin :
  let s :=
    post (@addText monoRenderer "ab" TextOptions.empty
            (@constructor monoRenderer
               (Options.mk None None None (Some nan) None None))) in
  let options := TextOptions.mk None None None None (Some true) in
  let one := post (@Earlier.addArticle monoRenderer "cd" options s) in
  let two :=
    post (@Earlier.addText monoRenderer "cd" options (post (breakLine s))) in
  neb (pagePaddingX s) (pagePaddingX s) = true /\
  writeY one = 10 + 16 * 0.55 /\
  writeY two = 10 + 16 * 0.55 + 16 * 0.55 /\
  neb (writeY one) (writeY two) = true.
Proof.
  cbv zeta. repeat split; vm_compute; reflexivity.
Qed.

(** ** Further runs on the concrete renderer *)

Lemma chunks_joined (n : nat) :
  (1 <= n)%nat ->
  forall fuel text,
    (String.length text <= fuel)%nat -> joined (chunks n fuel text) = text.
Proof.
  intro Hn. induction fuel as [|fuel IH]; intros text Hlen.
  - destruct text; [reflexivity | cbn in Hlen; lia].
  - destruct text as [|c text]; [reflexivity|].
    cbn [chunks joined]. rewrite IH.
    + apply substring_slice.
    + rewrite slice_length. cbn [String.length] in *. lia.
Qed.

Lemma monoRenderer_conserving : @conservingSplit monoRenderer.
Proof.
  intros pdf text maxlen. cbn. unfold monoSplit.
  apply chunks_joined; [apply Nat.le_max_l | apply Nat.le_refl].
Qed.

(** A text of 35 glyphs, drawn as a first line of 17 and a second of 18,
    is drawn whole. *)
Lemma addText_draws_every_character_witness :
  @conservingSplit monoRenderer /\
  joined (texts (pdf (post (@addText monoRenderer
                              "aaaaaaaaaaaaaaaaaaaaaaaaaaaaaaaaaaa"
                              TextOptions.empty a4))))
  = (joined (texts (pdf a4)) ++ "aaaaaaaaaaaaaaaaaaaaaaaaaaaaaaaaaaa")%string.
Proof.
  split; [exact monoRenderer_conserving|].
  exact (addText_draws_every_character (R := monoRenderer)
           "aaaaaaaaaaaaaaaaaaaaaaaaaaaaaaaaaaa" TextOptions.empty a4
           monoRenderer_conserving).
Defined.

(** With the cursor at 260 mm an element of 100 mm goes to the next page,
    where it passes the guard. *)
Lemma checkWriteY_makes_room_witness :
  let s := post (addSpace (Some 250) a4) in
  paginatesAtTop 100 s = false /\
  gtb (writeY (post (checkWriteY 100 s)) + 100)
    (pageHeight s - pagePaddingY s) = false /\
  post (checkWriteY 100 (post (checkWriteY 100 s)))
  = post (checkWriteY 100 s).
Proof.
  cbv zeta.
  assert (H : paginatesAtTop 100 (post (addSpace (Some 250) a4)) = false)
    by (vm_compute; reflexivity).
  split; [exact H|].
  exact (checkWriteY_makes_room 100 (post (addSpace (Some 250) a4)) H).
Defined.

(** An image of 200 x 100 pixels drawn 190 mm wide is 95 mm high and is
    drawn on the first page. *)
Lemma addImage_within_page_witness :
  let options := ImageOptions.mk None None (Some 190) None None in
  paginatesAtTop (190 * 100 / 200) a4 = false /\
  exists log y,
    pdf (post (@addImage monoRenderer "img" options a4)) =
      log ++ [AddImage "img" "PNG" ((pageWidth a4 - 190) / 2) y
                190 (190 * 100 / 200)] /\
    gtb (y + 190 * 100 / 200) (pageHeight a4 - pagePaddingY a4) = false /\
    writeY (post (@addImage monoRenderer "img" options a4))
    = y + 190 * 100 / 200.
Proof.
  cbv zeta.
  assert (H : paginatesAtTop (190 * 100 / 200) a4 = false)
    by (vm_compute; reflexivity).
  split; [exact H|].
  exact (addImage_within_page (R := monoRenderer) "img"
           (ImageOptions.mk None None (Some 190) None None) a4 H).
Defined.

(** The two lines of a text of 35 glyphs are drawn where a line passes the
    guard. *)
Lemma addText_lines_within_witness :
  paginatesAtTop (getLineHeight 16) a4 = false /\
  exists added,
    pdf (post (@addText monoRenderer "aaaaaaaaaaaaaaaaaaaaaaaaaaaaaaaaaaa"
                 TextOptions.empty a4)) = pdf a4 ++ added /\
    Forall (lineWithin 16 (pageHeight a4 - pagePaddingY a4)) added.
Proof.
  assert (H : paginatesAtTop (getLineHeight 16) a4 = false)
    by (vm_compute; reflexivity).
  split; [exact H|].
  exact (addText_lines_within (R := monoRenderer)
           "aaaaaaaaaaaaaaaaaaaaaaaaaaaaaaaaaaa" TextOptions.empty a4 H).
Defined.

(** ["ab"] and then ["cd"] on a new A4 document: both on the first line. *)
Lemma inline_texts_share_line_witness :
  let s1 := post (@addText monoRenderer "ab" TextOptions.empty a4) in
  let first2 :=
    @addTextFirstLine monoRenderer "cd" 16 0
      (post (addTextBegin 16 [10; 10; 10] false s1)) in
  orDefault (TextOptions.article TextOptions.empty) false = false /\
  orDefault (TextOptions.fontSize TextOptions.empty) (fontSize a4) = 16 /\
  paginatesAtTop (getLineHeight 16) a4 = false /\
  inlineWraps
    (set_writeX
       (writeX (post (@addTextRender monoRenderer "ab" 16 [10; 10; 10] 0
                        false a4)) + 0)
       (post (@addTextRender monoRenderer "ab" 16 [10; 10; 10] 0
                false a4))) = false /\
  pdf (post first2) =
    pdf s1 ++
    [SetFontSize 16; SetTextColor [10; 10; 10];
     Text (ret first2) (writeX s1) (writeY s1 + 16 * 0.4)] /\
  pageIndex (post first2) = pageIndex s1.
Proof.
  cbv zeta.
  assert (H : paginatesAtTop (getLineHeight 16) a4 = false)
    by (vm_compute; reflexivity).
  assert (Hw : inlineWraps
    (set_writeX
       (writeX (post (@addTextRender monoRenderer "ab" 16 [10; 10; 10] 0
                        false a4)) + 0)
       (post (@addTextRender monoRenderer "ab" 16 [10; 10; 10] 0
                false a4))) = false)
    by (vm_compute; reflexivity).
  split; [reflexivity|]. split; [reflexivity|].
  split; [exact H|]. split; [exact Hw|].
  destruct (inline_texts_share_line (R := monoRenderer) "ab" "cd"
              TextOptions.empty TextOptions.empty a4
              eq_refl eq_refl eq_refl H Hw)
    as (_ & _ & Hpdf & Hpage & _).
  split; [exact Hpdf | exact Hpage].
Defined.

(** The earlier [addArticle] on a cursor that an inline text has left
    behind its two glyphs, with the default margin of 10 mm. *)
Lemma earlier_addArticle_is_break_then_addText_witness :
  let s := post (@addText monoRenderer "ab" TextOptions.empty a4) in
  let options := TextOptions.mk None None None None (Some true) in
  (orDefault (TextOptions.article options) false
   && neb (pagePaddingX s) (pagePaddingX s))%bool = false /\
  post (@Earlier.addArticle monoRenderer "cd" options s) =
  post (@Earlier.addText monoRenderer "cd" options (post (breakLine s))).
Proof.
  cbv zeta.
  assert (H : (orDefault
                 (TextOptions.article
                    (TextOptions.mk None None None None (Some true))) false
               && neb
                    (pagePaddingX
                       (post (@addText monoRenderer "ab" TextOptions.empty
                                a4)))
                    (pagePaddingX
                       (post (@addText monoRenderer "ab" TextOptions.empty
                                a4))))%bool = false)
    by (vm_compute; reflexivity).
  split; [exact H|].
  exact (earlier_addArticle_is_break_then_addText (R := monoRenderer) "cd"
           (TextOptions.mk None None None None (Some true))
           (post (@addText monoRenderer "ab" TextOptions.empty a4)) H).
Defined.

(** The default rule on a new A4 document: 4 mm of margin and a stroke of
    0.5 mm, drawn at 14 mm. *)
Lemma addLine_within_page_witness :
  paginatesAtTop (4 + 0.5) a4 = false /\
  exists log y,
    pdf (post (addLine LineOptions.empty a4)) =
      log ++
      [SetLineWidth 0.5; SetDrawColor (color a4);
       Line (pagePaddingX a4) (y + 4)
         (pageWidth a4 - pagePaddingX a4) (y + 4)] /\
    gtb (y + (4 + 0.5)) (pageHeight a4 - pagePaddingY a4) = false /\
    writeY (post (addLine LineOptions.empty a4)) = y + (4 + 0.5 + 4).
Proof.
  assert (H : paginatesAtTop (4 + 0.5) a4 = false)
    by (vm_compute; reflexivity).
  split; [exact H|].
  exact (addLine_within_page LineOptions.empty a4 H).
Defined.
